(** * vc-go: signature abstraction and linked-data-proof subsystem

    A shallow embedding of

    - [internal/testutil/signatureutil/internal/signer/ecdsa.go]
      (the multi-curve ECDSA signer),
    - [signature/signer/signer_interop.go] (the interop [wrapTime]),
    - the fixtures of the [suite] and [verifiable] test files,

    followed by the properties the specification states about them.

    Conventions of the embedding.

    - A Go [[]byte] is a [list byte]; a [*big.Int] is a [Z].
    - A Go [int] is a [Z]; every [int] computed below is bounded by a curve
      bit size, far from the 64-bit range, so no wrap-around is written.
    - A Go result pair [(T, error)] is a pair of options, [None] being [nil],
      so that "no value next to an error" is a property and not a typing
      artefact.
    - A Go run-time panic is the [Panics] outcome of the [outcome] monad;
      a call that may panic returns an [outcome].
    - Pointers received by the embedded functions are taken non-nil. *)

From Stdlib Require Import ZArith NArith Lia.
From Stdlib Require Import Strings.Byte Strings.Ascii.
From stdpp Require Import base option list strings.

Local Open Scope Z_scope.

(* ===================================================================== *)
(** * Part I: definitions *)
(* ===================================================================== *)

(** ** Go run-time values shared by the packages *)

Module golang.

(** An [error] value is observed through its message ([Error()]). *)
Definition error : Type := string.

(** The two results [(T, error)] of a Go function. *)
Definition result (A : Type) : Type := (option A * option error)%type.

(** Exactly one of the two results is non-nil. *)
Definition exclusive {A : Type} (r : result A) : Prop :=
  match r with
  | (Some _, None) | (None, Some _) => True
  | _ => False
  end.

(** A computation that returns or panics. *)
Inductive outcome (A : Type) : Type :=
| Returns (a : A)
| Panics (reason : string).
Arguments Returns {A} a.
Arguments Panics {A} reason.

Definition bind {A B : Type} (m : outcome A) (k : A -> outcome B) : outcome B :=
  match m with
  | Returns a => k a
  | Panics reason => Panics reason
  end.

(** The value of a computation that returned. *)
Definition returned {A : Type} (m : outcome A) : option A :=
  match m with
  | Returns a => Some a
  | Panics _ => None
  end.

Definition panics {A : Type} (m : outcome A) : Prop :=
  match m with
  | Returns _ => False
  | Panics _ => True
  end.

(** The first result of a call [(T, error)] that may panic: [None] when the
    call returned [nil] for it and when it did not return. *)
Definition value {A : Type} (m : outcome (result A)) : option A :=
  match m with
  | Returns r => fst r
  | Panics _ => None
  end.

(** [make([]byte, size)]: a zeroed slice; a negative length panics. *)
Definition make_bytes (size : Z) : outcome (list byte) :=
  if size <? 0 then Panics "makeslice: len out of range"
  else Returns (replicate (Z.to_nat size) Byte.x00).

(** Bounds check of the slice expression [dest[low:]]. *)
Definition slice_from (dest : list byte) (low : Z) : outcome (list byte) :=
  if (low <? 0) || (Z.of_nat (length dest) <? low)
  then Panics "slice bounds out of range"
  else Returns (drop (Z.to_nat low) dest).

(** [copy(dst, src)]: the contents of [dst] afterwards; it copies
    [min(len(dst), len(src))] bytes. *)
Definition copy (dst src : list byte) : list byte :=
  take (length dst) src ++ drop (length src) dst.

(** [append(a, b...)]. *)
Definition append (a b : list byte) : list byte := a ++ b.

(** The byte holding the low eight bits of [n]. *)
Definition byte_of_N (n : N) : byte :=
  default Byte.x00 (Byte.of_N (n mod 256)%N).

(** Base-256 digits of [n], least significant first, without zero digits at
    the top; [fuel] bounds the number of digits. *)
Fixpoint le_digits (fuel : nat) (n : N) : list byte :=
  match fuel with
  | O => []
  | S fuel' =>
      if (n =? 0)%N then []
      else byte_of_N n :: le_digits fuel' (n / 256)%N
  end.

(** [big.Int.Bytes]: the absolute value as a big-endian byte slice of
    minimal length (empty for zero). *)
Definition big_Bytes (x : Z) : list byte :=
  rev (le_digits (N.to_nat (N.size (Z.abs_N x))) (Z.abs_N x)).

(** Value of a big-endian byte string, by Horner's rule. *)
Definition be_value (b : list byte) : N :=
  fold_left (fun acc d => (acc * 256 + Byte.to_N d)%N) b 0%N.

(** [big.Int.SetBytes]: the unsigned big-endian value of the slice. *)
Definition big_SetBytes (b : list byte) : Z := Z.of_N (be_value b).

End golang.

#[global] Instance byte_eq_decision : EqDecision byte := Byte.byte_eq_dec.

#[global] Instance outcome_bind : MBind golang.outcome :=
  fun A B k m => golang.bind m k.
#[global] Instance outcome_ret : MRet golang.outcome := @golang.Returns.

(** ** Package [signer]: [ecdsa.go] *)

Module signer.
Import golang.

(** [crypto.Hash], restricted to the members the signers bind. *)
Inductive Hash : Type := SHA256 | SHA384 | SHA512.

(** The fields of [elliptic.CurveParams] that the signer and its contract
    refer to: the name, the bit size of the field and the group order. *)
Record CurveParams : Type := {
  Name : string;
  BitSize : Z;
  N : Z
}.

(** [elliptic.Curve] values.  The four named constructors are the singleton
    curves [elliptic.P256()], [elliptic.P384()], [elliptic.P521()] and
    [btcec.S256()]; every other implementation of the interface is an
    [OtherCurve], which no [case] of the source's [switch] equals. *)
Inductive elliptic_Curve : Type :=
| P256
| P384
| P521
| S256
| OtherCurve (params : CurveParams).

Definition Params (c : elliptic_Curve) : CurveParams :=
  match c with
  | P256 =>
      {| Name := "P-256"; BitSize := 256;
         N := 0xffffffff00000000ffffffffffffffffbce6faada7179e84f3b9cac2fc632551 |}
  | P384 =>
      {| Name := "P-384"; BitSize := 384;
         N := 0xffffffffffffffffffffffffffffffffffffffffffffffffc7634d81f4372ddf581a0db248b0a77aecec196accc52973 |}
  | P521 =>
      {| Name := "P-521"; BitSize := 521;
         N := 0x01fffffffffffffffffffffffffffffffffffffffffffffffffffffffffffffffffa51868783bf2f966b7fcc0148f709a5d03bb5c9b8899c47aebb6fb71e91386409 |}
  | S256 =>
      {| Name := "secp256k1"; BitSize := 256;
         N := 0xfffffffffffffffffffffffffffffffebaaedce6af48a03bbfd25e8cd0364141 |}
  | OtherCurve params => params
  end.

(** The curves of the specification's table. *)
Definition supported (c : elliptic_Curve) : bool :=
  match c with
  | OtherCurve _ => false
  | _ => true
  end.

(** [ecdsa.PublicKey], and [ecdsa.PrivateKey] whose field [pub] is the
    embedded [PublicKey] ([privKey.Curve] is [Curve (pub privKey)]). *)
Record ecdsa_PublicKey : Type := {
  Curve : elliptic_Curve;
  X : Z;
  Y : Z
}.

Record ecdsa_PrivateKey : Type := {
  pub : ecdsa_PublicKey;
  D : Z
}.

(** The library functions [ecdsa.go] calls.  [Rand] is the state of
    [crypto/rand.Reader]; a library call that fails returns its error. *)
Class Primitives : Type := {
  Rand : Type;
  JWK : Type;
  (** [h.New(); Write(msg); Sum(nil)]; the hash is taken to be linked into
      the binary, as [New] panics otherwise *)
  hash_Sum : Hash -> list byte -> list byte;
  (** [ecdsa.GenerateKey(curve, rand.Reader)] *)
  ecdsa_GenerateKey : elliptic_Curve -> Rand -> ecdsa_PrivateKey + error;
  (** [ecdsa.Sign(rand.Reader, priv, hashed)] *)
  ecdsa_Sign : Rand -> ecdsa_PrivateKey -> list byte -> (Z * Z) + error;
  (** [jwksupport.JWKFromKey(pubKey)] *)
  jwksupport_JWKFromKey : ecdsa_PublicKey -> JWK + error;
  (** [elliptic.Marshal(curve, x, y)], which panics when the point is not
      on the curve *)
  elliptic_Marshal : elliptic_Curve -> Z -> Z -> outcome (list byte)
}.

Definition P256Alg : string := "ES256".
Definition P384Alg : string := "ES384".
Definition P521Alg : string := "ES521".
Definition Secp256Alg : string := "ES256K".

Section Signer.
Context `{Primitives}.

(** [ECDSASigner] makes ECDSA based signatures. *)
Record ECDSASigner : Type := {
  privateKey : ecdsa_PrivateKey;
  PubKey : ecdsa_PublicKey;
  PubKeyJWK : JWK;
  pubKeyBytes : list byte;
  hash : Hash;
  alg : string
}.

(** The error of [jwksupport.JWKFromKey] is returned before the composite
    literal is evaluated; a panic of [elliptic.Marshal] inside the literal
    leaves [newECDSASigner] without a result. *)
Definition newECDSASigner (privKey : ecdsa_PrivateKey) (pubKey : ecdsa_PublicKey)
    (hash : Hash) (alg : string) : outcome (result ECDSASigner) :=
  match jwksupport_JWKFromKey pubKey with
  | inr err => Returns (None, Some err)
  | inl pubJWK =>
      marshalled ← elliptic_Marshal (Curve pubKey) (X pubKey) (Y pubKey);
      Returns (Some {| privateKey := privKey;
                       PubKey := pubKey;
                       PubKeyJWK := pubJWK;
                       pubKeyBytes := marshalled;
                       hash := hash;
                       alg := alg |}, None)
  end.

Definition NewECDSAP256Signer (rnd : Rand) : outcome (result ECDSASigner) :=
  match ecdsa_GenerateKey P256 rnd with
  | inr err => Returns (None, Some err)
  | inl privKey => newECDSASigner privKey (pub privKey) SHA256 P256Alg
  end.

Definition GetECDSAP256Signer (privKey : ecdsa_PrivateKey)
    : outcome (result ECDSASigner) :=
  newECDSASigner privKey (pub privKey) SHA256 P256Alg.

Definition NewECDSAP384Signer (rnd : Rand) : outcome (result ECDSASigner) :=
  match ecdsa_GenerateKey P384 rnd with
  | inr err => Returns (None, Some err)
  | inl privKey => newECDSASigner privKey (pub privKey) SHA384 P384Alg
  end.

Definition GetECDSAP384Signer (privKey : ecdsa_PrivateKey)
    : outcome (result ECDSASigner) :=
  newECDSASigner privKey (pub privKey) SHA384 P384Alg.

Definition NewECDSAP521Signer (rnd : Rand) : outcome (result ECDSASigner) :=
  match ecdsa_GenerateKey P521 rnd with
  | inr err => Returns (None, Some err)
  | inl privKey => newECDSASigner privKey (pub privKey) SHA512 P521Alg
  end.

Definition GetECDSAP521Signer (privKey : ecdsa_PrivateKey)
    : outcome (result ECDSASigner) :=
  newECDSASigner privKey (pub privKey) SHA512 P521Alg.

Definition NewECDSASecp256k1Signer (rnd : Rand) : outcome (result ECDSASigner) :=
  match ecdsa_GenerateKey S256 rnd with
  | inr err => Returns (None, Some err)
  | inl privKey =>
      newECDSASigner privKey (pub privKey) SHA256 Secp256Alg
  end.

Definition GetECDSASecp256k1Signer (privKey : ecdsa_PrivateKey)
    : outcome (result ECDSASigner) :=
  newECDSASigner privKey (pub privKey) SHA256 Secp256Alg.

(** [NewECDSASigner] creates a signer based on the input elliptic curve. *)
Definition NewECDSASigner (curve : elliptic_Curve) (rnd : Rand)
    : outcome (result ECDSASigner) :=
  match curve with
  | P256 => NewECDSAP256Signer rnd
  | P384 => NewECDSAP384Signer rnd
  | P521 => NewECDSAP521Signer rnd
  | S256 => NewECDSASecp256k1Signer rnd
  | OtherCurve _ => Returns (None, Some "unsupported curve")
  end.

(** [GetECDSASigner] creates a signer based on the input private key. *)
Definition GetECDSASigner (privKey : ecdsa_PrivateKey)
    : outcome (result ECDSASigner) :=
  match Curve (pub privKey) with
  | P256 => GetECDSAP256Signer privKey
  | P384 => GetECDSAP384Signer privKey
  | P521 => GetECDSAP521Signer privKey
  | S256 => GetECDSASecp256k1Signer privKey
  | OtherCurve _ => Returns (None, Some "unsupported curve")
  end.

Definition PublicKey (es : ECDSASigner) : ecdsa_PublicKey := PubKey es.
Definition PublicJWK (es : ECDSASigner) : JWK := PubKeyJWK es.
Definition PublicKeyBytes (es : ECDSASigner) : list byte := pubKeyBytes es.
Definition Alg (es : ECDSASigner) : string := alg es.

(** [keyBytes := curveBits / 8; if curveBits%8 > 0 { keyBytes++ }], with
    Go's truncating [/] and [%]. *)
Definition keyBytesOf (curveBits : Z) : Z :=
  let keyBytes := curveBits ÷ 8 in
  if Z.rem curveBits 8 >? 0 then keyBytes + 1 else keyBytes.

(** The closure [copyPadded] of [signEcdsa]. *)
Definition copyPadded (source : list byte) (size : Z) : outcome (list byte) :=
  dest ← make_bytes size;
  let low := size - Z.of_nat (length source) in
  window ← slice_from dest low;
  Returns (take (Z.to_nat low) dest ++ copy window source).

Definition signEcdsa (rnd : Rand) (msg : list byte) (privateKey : ecdsa_PrivateKey)
    (hash : Hash) : outcome (result (list byte)) :=
  let hashed := hash_Sum hash msg in
  match ecdsa_Sign rnd privateKey hashed with
  | inr err => Returns (None, Some err)
  | inl (r, s) =>
      let curveBits := BitSize (Params (Curve (pub privateKey))) in
      let keyBytes := keyBytesOf curveBits in
      rBytes ← copyPadded (big_Bytes r) keyBytes;
      sBytes ← copyPadded (big_Bytes s) keyBytes;
      Returns (Some (append rBytes sBytes), None)
  end.

(** [Sign] signs a message. *)
Definition Sign (es : ECDSASigner) (rnd : Rand) (msg : list byte)
    : outcome (result (list byte)) :=
  signEcdsa rnd msg (privateKey es) (hash es).

End Signer.

(** The specification's width [ceil(curve_bit_size / 8)], stated apart from
    the source's way of computing it. *)
Definition ceil_div8 (bits : Z) : Z := (bits + 7) / 8.

End signer.

(** ** ECDSA verification *)

Module verifier.
Import golang signer.

(** [ecdsa.Verify(pub, hashed, r, s)], the curve-verification primitive. *)
Class VerifyPrimitive : Type := {
  ecdsa_Verify : ecdsa_PublicKey -> list byte -> Z -> Z -> bool
}.

(** The hash column of the specification's table of supported curves. *)
Definition tableHash (c : elliptic_Curve) : option Hash :=
  match c with
  | P256 | S256 => Some SHA256
  | P384 => Some SHA384
  | P521 => Some SHA512
  | OtherCurve _ => None
  end.

Section Verify.
Context `{Primitives} `{VerifyPrimitive}.

(** Modelled from the spec: the ECDSA [Verify] of the repository's verifier
    package, which is not among the source files.  Section 4.1 requires that
    verification "reverse this exact padding rule to reconstruct (r, s)
    before delegating to the underlying curve-verification primitive"; the
    wire encoding of section 6 is the fixed-width [r || s], each component
    big-endian on [ceil(curve_bit_size/8)] bytes, hashed with the hash the
    table binds to the curve.  The result is the returned error, [None]
    being success. *)
Definition Verify (pubKey : ecdsa_PublicKey) (msg signature : list byte)
    : option error :=
  match tableHash (Curve pubKey) with
  | None => Some "unsupported curve"
  | Some h =>
      let keyBytes :=
        Z.to_nat (ceil_div8 (BitSize (Params (Curve pubKey)))) in
      if decide (length signature = (2 * keyBytes)%nat) then
        let r := big_SetBytes (take keyBytes signature) in
        let s := big_SetBytes (drop keyBytes signature) in
        if ecdsa_Verify pubKey (hash_Sum h msg) r s then None
        else Some "ecdsa: invalid signature"
      else Some "ecdsa: invalid signature size"
  end.

End Verify.

End verifier.

(** ** Package [suite]: the opaque-backend adapter *)

Module suite.
Import golang.

(** [api.PublicKey] (also named [verifier.PublicKey]): the key handed to a
    verifier, with its type tag, raw key bytes and JWK export. *)
Record PublicKey : Type := {
  Type_ : string;
  Value : list byte;
  JWK : option string
}.

(** The contract of the backend behind the signer adapter: [Sign(msg)].
    The adapter holds its backend by reference, and a backend may change
    with every call (a remote service, a mock that counts its calls): a call
    returns its results and the backend as it is afterwards. *)
Class SignerBackend (B : Type) : Type := {
  backend_Sign : B -> list byte -> result (list byte) * B
}.

(** The contract of the backend behind the verifier adapter:
    [Verify(signature, msg, key)], [None] being success. *)
Class VerifierBackend (B : Type) : Type := {
  backend_Verify :
    B -> list byte -> list byte -> PublicKey -> option error * B
}.

(** Modelled from the spec: the adapter types [CryptoSigner] and
    [CryptoVerifier] with their constructors [NewCryptoWrapperSigner] and
    [NewCryptoVerifier]; only their test file is among the source files.
    Section 4.2: "Sign forwards the message and returns the backend's
    signature bytes unchanged, or propagates the backend's error unchanged
    (no wrapping, no retry)"; "Verify forwards (publicKey, message,
    signature) and returns the backend's success/error verbatim".  A call
    returns its results and the adapter over the backend as the call left
    it. *)
Record CryptoSigner (B : Type) : Type := { cr : B }.
Arguments cr {B} _.

Record CryptoVerifier (B : Type) : Type := { kc : B }.
Arguments kc {B} _.

Definition NewCryptoWrapperSigner {B : Type} (backend : B)
    : option (CryptoSigner B) :=
  Some {| cr := backend |}.

Definition NewCryptoVerifier {B : Type} (backend : B)
    : option (CryptoVerifier B) :=
  Some {| kc := backend |}.

Definition Sign {B : Type} `{SignerBackend B} (s : CryptoSigner B)
    (msg : list byte) : result (list byte) * CryptoSigner B :=
  let '(res, backend) := backend_Sign (cr s) msg in
  (res, {| cr := backend |}).

Definition Verify {B : Type} `{VerifierBackend B} (v : CryptoVerifier B)
    (pubKey : PublicKey) (msg signature : list byte)
    : option error * CryptoVerifier B :=
  let '(err, backend) := backend_Verify (kc v) signature msg pubKey in
  (err, {| kc := backend |}).

(** A call that reached a backend, with its arguments. *)
Inductive BackendCall : Type :=
| SignCall (msg : list byte)
| VerifyCall (signature msg : list byte) (pubKey : PublicKey).

(** A backend under observation: [calls] lists the calls made on it, oldest
    first.  Each call is answered by the observed backend and recorded. *)
Record Observed (B : Type) : Type := {
  observed : B;
  calls : list BackendCall
}.
Arguments observed {B} _.
Arguments calls {B} _.

Definition observe {B : Type} (backend : B) : Observed B :=
  {| observed := backend; calls := [] |}.

#[global] Instance Observed_signs {B : Type} `{SignerBackend B}
    : SignerBackend (Observed B) :=
  {| backend_Sign o msg :=
       let '(res, backend) := backend_Sign (observed o) msg in
       (res, {| observed := backend; calls := calls o ++ [SignCall msg] |}) |}.

#[global] Instance Observed_verifies {B : Type} `{VerifierBackend B}
    : VerifierBackend (Observed B) :=
  {| backend_Verify o signature msg pubKey :=
       let '(err, backend) :=
         backend_Verify (observed o) signature msg pubKey in
       (err, {| observed := backend;
                calls := calls o ++ [VerifyCall signature msg pubKey] |}) |}.

(** Modelled from the spec: the mock backends of the test file, which the
    tests configure through the fields [SignVal] and [VerifyErr]; section 8
    describes them as "configured to return signature bytes ... for any
    input" and "configured to fail verification with error text ...".  A
    field left out of the composite literal is [nil]. *)
Record MockFixedKeyCrypto : Type := {
  SignVal : option (list byte);
  SignErr : option error
}.

Record MockKMSCrypto : Type := {
  VerifyErr : option error
}.

#[global] Instance MockFixedKeyCrypto_signs : SignerBackend MockFixedKeyCrypto :=
  {| backend_Sign m _ := ((SignVal m, SignErr m), m) |}.

#[global] Instance MockKMSCrypto_verifies : VerifierBackend MockKMSCrypto :=
  {| backend_Verify m _ _ _ := (VerifyErr m, m) |}.

(** [[]byte("...")]. *)
Definition bytes (s : string) : list byte := String.list_byte_of_string s.

(** A backend that is unavailable for its first call and answers from the
    second on; [attempts] counts the calls it has seen.  A caller that
    retried would get its signature, a caller that forwards gets its
    error. *)
Record FlakyCrypto : Type := { attempts : nat }.

#[global] Instance FlakyCrypto_signs : SignerBackend FlakyCrypto :=
  {| backend_Sign f _ :=
       (match attempts f with
        | O => (None, Some "backend unavailable")
        | S _ => (Some (bytes "signature"), None)
        end, {| attempts := S (attempts f) |}) |}.

#[global] Instance FlakyCrypto_verifies : VerifierBackend FlakyCrypto :=
  {| backend_Verify f _ _ _ :=
       (match attempts f with
        | O => Some "backend unavailable"
        | S _ => None
        end, {| attempts := S (attempts f) |}) |}.

(** [TestNewCryptoSigner]: the signer the test builds, then its [Sign]. *)
Definition TestNewCryptoSigner_signature : option (result (list byte)) :=
  cryptoSigner ← NewCryptoWrapperSigner
                    {| SignVal := Some (bytes "signature"); SignErr := None |};
  Some (fst (Sign cryptoSigner (bytes "msg"))).

(** [TestNewCryptoVerifier]: the verifier the test builds, then its
    [Verify] on an empty public key. *)
Definition TestNewCryptoVerifier_err : option (option error) :=
  cryptoVerifier ← NewCryptoVerifier {| VerifyErr := Some "verify error" |};
  Some (fst (Verify cryptoVerifier
               {| Type_ := EmptyString; Value := []; JWK := None |}
               (bytes "msg") (bytes "signature"))).

End suite.

(** ** Package [signer] of [signature/], interop build: [signer_interop.go] *)

Module interop.
Import golang.

(** A [time.Time], observed through [Date()], [Clock()], [Nanosecond()] and
    the offset of [Zone()] in seconds east of UTC. *)
Record Time : Type := {
  year : Z;
  month : Z;
  day : Z;
  hour : Z;
  minute : Z;
  second : Z;
  nanosecond : Z;
  offset : Z
}.

(** [afgotime.TimeWrapper]: a time and the string it was parsed from. *)
Record TimeWrapper : Type := {
  Time_ : Time;
  timeStr : string
}.

(** The library functions [wrapTime] calls: [t.Format(time.RFC3339)] and
    [afgotime.ParseTimeWrapper]. *)
Class TimeLibrary : Type := {
  Format_RFC3339 : Time -> string;
  ParseTimeWrapper : string -> result TimeWrapper
}.

(** [tw, _ := afgotime.ParseTimeWrapper(t.Format(time.RFC3339)); return tw] *)
Definition wrapTime `{TimeLibrary} (t : Time) : option TimeWrapper :=
  let '(tw, _) := ParseTimeWrapper (Format_RFC3339 t) in
  tw.

End interop.

(** ** Package [verifiable]: linked-data proofs *)

Module verifiable.
Import golang.

(** Modelled from the spec: the [Proof] of section 3, "{type, created
    timestamp, verificationMethod identifier, proofPurpose,
    signatureValue}"; the repository's proof type is not among the source
    files. *)
Record Proof : Type := {
  type_ : string;
  created : interop.Time;
  verificationMethod : string;
  proofPurpose : string;
  signatureValue : list byte
}.

(** Modelled from the spec: the [Document] of section 3 (a credential or
    presentation), which "owns a sequence of Proofs", in attachment order,
    next to its content. *)
Record Document : Type := {
  content : string;
  proofs : list Proof
}.

Definition withSignature (p : Proof) (value : list byte) : Proof :=
  {| type_ := type_ p; created := created p;
     verificationMethod := verificationMethod p;
     proofPurpose := proofPurpose p; signatureValue := value |}.


Inductive SignatureRepresentation : Type :=
| SignatureProofValue
| SignatureJWS.

(** Modelled from the spec: the [SignatureSuite] of section 3, through its
    algorithm identifier, signing with the signer it was built on, and
    verification against a resolved key. *)
Record Suite : Type := {
  suiteAlg : string;
  suiteSign : list byte -> list byte + error;
  suiteVerify : suite.PublicKey -> list byte -> list byte -> option error
}.

(** [LinkedDataProofContext], with the fields the fixtures set and the
    proof purpose of section 4.3. *)
Record LinkedDataProofContext : Type := {
  SignatureType : string;
  Suite_ : Suite;
  SignatureRepresentation_ : SignatureRepresentation;
  Created : option interop.Time;
  VerificationMethod : string;
  Purpose : string
}.

(** Modelled from the spec: the collaborators of section 6, the canonicalizer
    [(document, excludedProofIndex) -> canonical bytes | error], the suites
    bound to proof types on the verifying side, and the encoder of the
    detached compact token. *)
Class Collaborators : Type := {
  canonicalize : Document -> nat -> list byte + error;
  suiteFor : string -> option Suite;
  encodeToken : string -> list byte -> list byte
}.

(** The Public-Key Resolver [fetcher(issuerIdentity, keyID)], a Go function
    value that returns a key, returns an error, or panics. *)
Definition PublicKeyFetcher : Type :=
  string -> string -> outcome (suite.PublicKey + error).

(** [strings.Split(s, sep)] for a one-byte separator. *)
Fixpoint split (sep : ascii) (s : string) : list string :=
  match s with
  | EmptyString => [EmptyString]
  | String c rest =>
      if decide (c = sep) then EmptyString :: split sep rest
      else
        match split sep rest with
        | head :: tail => String c head :: tail
        | [] => [String c EmptyString]
        end
  end.

(** Whether the byte [c] occurs in [s]. *)
Fixpoint contains (c : ascii) (s : string) : bool :=
  match s with
  | EmptyString => false
  | String c' rest => bool_decide (c' = c) || contains c rest
  end.

(** Modelled from the spec: the verdict on one proof, with the failure
    kinds of section 7. *)
Inductive ProofResult : Type :=
| Verified
| KeyResolutionFailure (err : error)
| VerificationFailure (err : error).

(** Calls made to the Public-Key Resolver, oldest first. *)
Definition Call : Type := (string * string)%type.

(** A computation that records its resolver calls and may panic. *)
Definition traced (A : Type) : Type := list Call -> outcome A * list Call.

Definition traced_ret {A : Type} (a : A) : traced A :=
  fun log => (Returns a, log).

Definition traced_bind {A B : Type} (m : traced A) (k : A -> traced B)
    : traced B :=
  fun log =>
    match m log with
    | (Returns a, log') => k a log'
    | (Panics reason, log') => (Panics reason, log')
    end.

Definition resolve (fetcher : PublicKeyFetcher) (issuerID keyID : string)
    : traced (suite.PublicKey + error) :=
  fun log => (fetcher issuerID keyID, log ++ [(issuerID, keyID)]).

End verifiable.

#[global] Instance traced_mret : MRet verifiable.traced :=
  @verifiable.traced_ret.
#[global] Instance traced_mbind : MBind verifiable.traced :=
  fun A B k m => verifiable.traced_bind m k.

Module manager.
Import golang verifiable.

Section Manager.
Context `{Collaborators}.

(** Modelled from the spec: [AttachProof] ([AddLinkedDataProof]) of section
    4.3, whose code is not among the source files.  "1. Canonicalize
    document with the current proof list excluding the proof being created.
    2. Compute the digest/signature bytes via suite using the supplied
    Signer.  3. Encode the signature per signatureRepresentation (raw
    bytes, or a detached compact token embedding the algorithm header).
    4. Construct a Proof ... and append it to the document's proof
    sequence."  [created] defaults to the current time [now].  The second
    result is the error; on an error the document is returned as it was. *)
Definition AttachProof (now : interop.Time) (document : Document)
    (context : LinkedDataProofContext) : Document * option error :=
  let draft :=
    {| type_ := SignatureType context;
       created := default now (Created context);
       verificationMethod := VerificationMethod context;
       proofPurpose := Purpose context;
       signatureValue := [] |} in
  let excluded := length (proofs document) in
  match canonicalize {| content := content document;
                        proofs := proofs document ++ [draft] |} excluded with
  | inr err => (document, Some err)
  | inl canonical =>
      match suiteSign (Suite_ context) canonical with
      | inr err => (document, Some err)
      | inl signature =>
          let value :=
            match SignatureRepresentation_ context with
            | SignatureProofValue => signature
            | SignatureJWS => encodeToken (suiteAlg (Suite_ context)) signature
            end in
          ({| content := content document;
              proofs := proofs document ++ [withSignature draft value] |},
           None)
      end
  end.

(** Modelled from the spec: step 1 of [VerifyProofs], "Parse
    verificationMethod into (issuerIdentity, keyFragment) by splitting on
    #".  An identifier that does not split into exactly these two parts
    names no key. *)
Definition parseVerificationMethod (vm : string) : option (string * string) :=
  match split "#" vm with
  | [issuerIdentity; keyFragment] => Some (issuerIdentity, keyFragment)
  | _ => None
  end.

(** Modelled from the spec: steps 3 and 4 of [VerifyProofs], "Canonicalize
    the document with that specific proof excluded, producing the exact
    bytes that were originally signed" and "Verify using the
    suite/Verifier bound to the proof's declared type". *)
Definition checkSignature (document : Document) (index : nat) (proof : Proof)
    (publicKey : suite.PublicKey) : ProofResult :=
  match canonicalize document index with
  | inr err => VerificationFailure err
  | inl canonical =>
      match suiteFor (type_ proof) with
      | None => VerificationFailure "unsupported signature type"
      | Some suite =>
          match suiteVerify suite publicKey canonical (signatureValue proof)
          with
          | None => Verified
          | Some err => VerificationFailure err
          end
      end
  end.

(** Modelled from the spec: the verification of one proof, steps 1 to 4 of
    [VerifyProofs]; step 2 is "Resolve the public key via the external
    Public-Key Resolver fetcher(issuerIdentity, # + keyFragment).  A
    resolution failure is a verification failure for that proof, not fatal
    to other proofs". *)
Definition verifyProof (document : Document) (fetcher : PublicKeyFetcher)
    (index : nat) (proof : Proof) : traced ProofResult :=
  match parseVerificationMethod (verificationMethod proof) with
  | None => mret (KeyResolutionFailure "wrong id to resolve")
  | Some (issuerIdentity, keyFragment) =>
      resolved ← resolve fetcher issuerIdentity ("#" +:+ keyFragment);
      match resolved with
      | inr err => mret (KeyResolutionFailure err)
      | inl publicKey => mret (checkSignature document index proof publicKey)
      end
  end.

(** Modelled from the spec: the loop of [VerifyProofs] over the proofs from
    position [index] on. *)
Fixpoint verifyFrom (document : Document) (fetcher : PublicKeyFetcher)
    (index : nat) (remaining : list Proof) : traced (list ProofResult) :=
  match remaining with
  | [] => mret []
  | proof :: rest =>
      verdict ← verifyProof document fetcher index proof;
      verdicts ← verifyFrom document fetcher (S index) rest;
      mret (verdict :: verdicts)
  end.

(** Modelled from the spec: [VerifyProofs(document, fetcher)], "for each
    Proof in the document's sequence, independently"; "the manager only
    reports a per-proof result list".  The second component is the list of
    resolver calls made. *)
Definition VerifyProofs (document : Document) (fetcher : PublicKeyFetcher)
    : outcome (list ProofResult) * list Call :=
  verifyFrom document fetcher 0 (proofs document) [].

(** The resolver call that verifying [proof] makes, if its verification
    method splits. *)
Definition resolverCall (proof : Proof) : option Call :=
  '(issuerIdentity, keyFragment) ←
    parseVerificationMethod (verificationMethod proof);
  Some (issuerIdentity, "#" +:+ keyFragment).

(** The verdict on [proof] as a function of what the resolver does. *)
Definition verdict (document : Document) (fetcher : PublicKeyFetcher)
    (index : nat) (proof : Proof) : outcome ProofResult :=
  match resolverCall proof with
  | None => Returns (KeyResolutionFailure "wrong id to resolve")
  | Some (issuerID, keyID) =>
      resolved ← fetcher issuerID keyID;
      Returns (match resolved with
               | inr err => KeyResolutionFailure err
               | inl publicKey => checkSignature document index proof publicKey
               end)
  end.


End Manager.



End manager.

(** ** Fixtures of the [verifiable] tests *)

Module fixtures.
Import golang verifiable manager.

(** [signatureutil.CryptoSigner(t, kmsapi.ED25519Type)]: a test signer,
    observed through the suite [ed25519signature2018.New(suite.WithSigner(
    signer))] built on it and through [signer.PublicJWK()]. *)
Record CryptoSigner : Type := {
  ed25519signature2018_New : Suite;
  PublicJWK : string
}.

(** The [PublicKeyFetcher] closure that [createVCWithTwoLinkedDataProofs]
    returns. *)
Definition twoKeyFetcher (signer1 signer2 : CryptoSigner) : PublicKeyFetcher :=
  fun issuerID keyID =>
    if decide (keyID = "#key1") then
      Returns (inl {| suite.Type_ := "Ed25519Signature2018";
                      suite.Value := [];
                      suite.JWK := Some (PublicJWK signer1) |})
    else if decide (keyID = "#key2") then
      Returns (inl {| suite.Type_ := "Ed25519Signature2018";
                      suite.Value := [];
                      suite.JWK := Some (PublicJWK signer2) |})
    else Panics "invalid keyID".

Section Fixture.
Context `{Collaborators}.

(** [createVCWithTwoLinkedDataProofs]: [parsed] is the result of
    [ParseCredential] on the embedded credential, [created] the value of
    [time.Now()]; [None] stands for the helper stopped by a failed
    [require.NoError]. *)
Definition createVCWithTwoLinkedDataProofs (parsed : result Document)
    (created : interop.Time) (signer1 signer2 : CryptoSigner)
    : option (Document * PublicKeyFetcher) :=
  match parsed with
  | (Some vc, None) =>
      match AttachProof created vc
              {| SignatureType := "Ed25519Signature2018";
                 Suite_ := ed25519signature2018_New signer1;
                 SignatureRepresentation_ := SignatureJWS;
                 Created := Some created;
                 VerificationMethod := "did:123#key1";
                 Purpose := EmptyString |} with
      | (vc, None) =>
          match AttachProof created vc
                  {| SignatureType := "Ed25519Signature2018";
                     Suite_ := ed25519signature2018_New signer2;
                     SignatureRepresentation_ := SignatureJWS;
                     Created := Some created;
                     VerificationMethod := "did:123#key2";
                     Purpose := EmptyString |} with
          | (vc, None) => Some (vc, twoKeyFetcher signer1 signer2)
          | (_, Some _) => None
          end
      | (_, Some _) => None
      end
  | _ => None
  end.

End Fixture.

End fixtures.

(** ** The time library on civil times

    Go's [Time.Format] and [time.Parse] for the layout [time.RFC3339]
    ([2006-01-02T15:04:05Z07:00]) and [afgotime.ParseTimeWrapper], which
    wraps [time.Parse(time.RFC3339, s)].  [Parse] accepts what the layout
    parser of [time.Parse] accepts for this layout: besides the strict
    form, an hour of one digit and a fractional second after a comma. *)

Module gotime.
Import golang interop.

Definition digit (d : Z) : ascii :=
  ascii_of_nat (48 + Z.to_nat (d mod 10)).

(** Decimal digits of [u], most significant first, in front of [acc]. *)
Fixpoint decimal (fuel : nat) (u : Z) (acc : string) : string :=
  match fuel with
  | O => acc
  | S fuel' =>
      let acc' := String (digit u) acc in
      if u <? 10 then acc' else decimal fuel' (u / 10) acc'
  end.

Fixpoint zeros (n : nat) : string :=
  match n with
  | O => EmptyString
  | S n' => String "0" (zeros n')
  end.

(** [appendInt(b, x, width)]: a sign for negative [x], then the decimal
    digits of its magnitude, zero-padded on the left to [width]. *)
Definition appendInt (x : Z) (width : nat) : string :=
  let u := Z.abs x in
  let digits := decimal (S (Z.to_nat (Z.log2 u))) u EmptyString in
  (if x <? 0 then "-" else EmptyString)
  +:+ zeros (width - String.length digits) +:+ digits.

(** [Time.appendFormatRFC3339] without fractional seconds. *)
Definition Format (t : Time) : string :=
  appendInt (year t) 4 +:+ "-" +:+ appendInt (month t) 2 +:+ "-"
  +:+ appendInt (day t) 2 +:+ "T" +:+ appendInt (hour t) 2 +:+ ":"
  +:+ appendInt (minute t) 2 +:+ ":" +:+ appendInt (second t) 2
  +:+ (if offset t =? 0 then "Z"
       else
         let zone := offset t ÷ 60 in
         (if zone <? 0 then "-" else "+")
         +:+ appendInt (Z.abs zone / 60) 2 +:+ ":"
         +:+ appendInt (Z.abs zone mod 60) 2).

Definition isDigit (c : ascii) : bool :=
  (48 <=? nat_of_ascii c)%nat && (nat_of_ascii c <=? 57)%nat.

(** [parseUint(s[i:i+n], min, max)] at the head of [s]: exactly [n] digits
    denoting a number within the range, and the rest of [s]. *)
Fixpoint parseUint (n : nat) (s : string) (acc : Z) : option (Z * string) :=
  match n with
  | O => Some (acc, s)
  | S n' =>
      match s with
      | String c s' =>
          if isDigit c
          then parseUint n' s' (acc * 10 + Z.of_nat (nat_of_ascii c - 48))
          else None
      | EmptyString => None
      end
  end.

Definition ranged (n : nat) (lo hi : Z) (s : string) : option (Z * string) :=
  '(x, rest) ← parseUint n s 0;
  if (lo <=? x) && (x <=? hi) then Some (x, rest) else None.

(** [getnum(s, false)] for the hour, the one field of the layout that is
    not of fixed width: two digits when the second byte is a digit, one
    otherwise; then the range test [hour < 24]. *)
Definition hourField (s : string) : option (Z * string) :=
  match s with
  | String c1 rest =>
      if isDigit c1 then
        let d1 := Z.of_nat (nat_of_ascii c1 - 48) in
        '(x, rest') ←
          match rest with
          | String c2 rest2 =>
              if isDigit c2
              then Some (d1 * 10 + Z.of_nat (nat_of_ascii c2 - 48), rest2)
              else Some (d1, rest)
          | EmptyString => Some (d1, rest)
          end;
        if x <? 24 then Some (x, rest') else None
      else None
  | EmptyString => None
  end.

Definition expect (c : ascii) (s : string) : option string :=
  match s with
  | String c' rest => if decide (c = c') then Some rest else None
  | EmptyString => None
  end.

Definition isLeap (y : Z) : bool :=
  (y mod 4 =? 0) && (negb (y mod 100 =? 0) || (y mod 400 =? 0)).

Definition daysIn (m y : Z) : Z :=
  if m =? 2 then (if isLeap y then 29 else 28)
  else if (m =? 4) || (m =? 6) || (m =? 9) || (m =? 11) then 30
  else 31.

(** Digits of a fractional second: their value in nanoseconds (digits past
    the ninth are dropped) and the rest of the string. *)
Fixpoint fraction (fuel : nat) (s : string) (scale acc : Z) : Z * string :=
  match fuel, s with
  | S fuel', String c rest =>
      if isDigit c
      then fraction fuel' rest (scale / 10)
             (acc + Z.of_nat (nat_of_ascii c - 48) * scale)
      else (acc, s)
  | _, _ => (acc, s)
  end.

(** [commaOrPeriod]. *)
Definition commaOrPeriod (c : ascii) : bool :=
  bool_decide (c = "."%char) || bool_decide (c = ","%char).

(** The fractional second that may follow the seconds although the layout
    has none: a comma or period followed by a digit. *)
Definition parseFraction (s : string) : Z * string :=
  match s with
  | String sep (String c rest) =>
      if commaOrPeriod sep && isDigit c
      then fraction (String.length s) (String c rest) 100000000 0
      else (0, s)
  | _ => (0, s)
  end.

(** The zone suffix: [Z], or a sign and [hh:mm]. *)
Definition parseZone (s : string) : option Z :=
  match s with
  | String "Z" EmptyString => Some 0
  | String sign rest =>
      '(hr, rest) ← ranged 2 0 24 rest;
      rest ← expect ":" rest;
      '(mm, rest) ← ranged 2 0 60 rest;
      match rest with
      | EmptyString =>
          if decide (sign = "+"%char) then Some ((hr * 60 + mm) * 60)
          else if decide (sign = "-"%char) then Some (- ((hr * 60 + mm) * 60))
          else None
      | _ => None
      end
  | EmptyString => None
  end.

(** [time.Parse(time.RFC3339, s)], as a civil time in the parsed zone. *)
Definition Parse (s : string) : option Time :=
  '(y, rest) ← ranged 4 0 9999 s;
  rest ← expect "-" rest;
  '(m, rest) ← ranged 2 1 12 rest;
  rest ← expect "-" rest;
  '(d, rest) ← ranged 2 1 (daysIn m y) rest;
  rest ← expect "T" rest;
  '(hh, rest) ← hourField rest;
  rest ← expect ":" rest;
  '(mi, rest) ← ranged 2 0 59 rest;
  rest ← expect ":" rest;
  '(ss, rest) ← ranged 2 0 59 rest;
  let '(nsec, rest) := parseFraction rest in
  off ← parseZone rest;
  Some {| year := y; month := m; day := d; hour := hh; minute := mi;
          second := ss; nanosecond := nsec; offset := off |}.

Section Wrapper.

(** The message of the error that [time.Parse] returns for a string it
    rejects.  The text is not modelled: only that there is an error. *)
Variable parseError : string -> error.

Definition ParseTimeWrapper (timeStr : string) : result TimeWrapper :=
  match Parse timeStr with
  | None => (None, Some (parseError timeStr))
  | Some t => (Some {| Time_ := t; timeStr := timeStr |}, None)
  end.

Definition library : TimeLibrary :=
  {| Format_RFC3339 := Format; interop.ParseTimeWrapper := ParseTimeWrapper |}.

End Wrapper.

(** [time.Date(2024, 2, 29, 23, 59, 58, 123456789, time.FixedZone(..., -5*3600 - 30*60))] *)
Definition leap_day : Time :=
  {| year := 2024; month := 2; day := 29; hour := 23; minute := 59;
     second := 58; nanosecond := 123456789; offset := -19800 |}.

(** [time.Date(10000, 1, 1, 0, 0, 0, 0, time.UTC)] *)
Definition year_10000 : Time :=
  {| year := 10000; month := 1; day := 1; hour := 0; minute := 0;
     second := 0; nanosecond := 0; offset := 0 |}.

End gotime.

(** ** A runnable instance of the library interface

    A small deterministic stand-in for the cryptographic libraries, used to
    run the embedded functions on concrete inputs.  The random source is
    [Some nonce], or [None] when the reader fails; signature components are
    reduced into [[1, N-1]] as ECDSA's are; the points [(x, x + 1)] stand
    for the points of a curve. *)

Module stub.
Import golang signer.

Definition digest_size (h : Hash) : nat :=
  match h with SHA256 => 32 | SHA384 => 48 | SHA512 => 64 end%nat.

Definition sum (h : Hash) (msg : list byte) : list byte :=
  take (digest_size h) (msg ++ replicate (digest_size h) Byte.x00).

Definition key (c : elliptic_Curve) (d : Z) : ecdsa_PrivateKey :=
  {| pub := {| Curve := c; X := d + 1; Y := d + 2 |}; D := d |}.

(** The stand-in for the curve equation. *)
Definition onCurve (x y : Z) : bool := y =? x + 1.

(** [big.Int.FillBytes] on a buffer of [size] bytes. *)
Definition fillBytes (x size : Z) : outcome (list byte) :=
  let b := big_Bytes x in
  if size <? Z.of_nat (length b)
  then Panics "math/big: buffer too small to fit value"
  else Returns (replicate (Z.to_nat size - length b) Byte.x00 ++ b).

(** [elliptic.Marshal]: [panicIfNotOnCurve], then the uncompressed form,
    byte 4 followed by [x] and [y] on [(BitSize + 7) / 8] bytes each. *)
Definition marshal (c : elliptic_Curve) (x y : Z) : outcome (list byte) :=
  if onCurve x y then
    let byteLen := (BitSize (Params c) + 7) / 8 in
    xBytes ← fillBytes x byteLen;
    yBytes ← fillBytes y byteLen;
    Returns (Byte.x04 :: xBytes ++ yBytes)
  else Panics "crypto/elliptic: attempted operation on invalid point".

Definition into_order (c : elliptic_Curve) (x : Z) : Z :=
  1 + x mod (N (Params c) - 1).

Definition sign (rnd : option Z) (priv : ecdsa_PrivateKey) (hashed : list byte)
    : (Z * Z) + error :=
  match rnd with
  | None => inr "rand: reader failed"
  | Some k =>
      let c := Curve (pub priv) in
      let r := into_order c k in
      inl (r, into_order c (big_SetBytes hashed + r * D priv + k))
  end.

#[export] Instance primitives : Primitives := {|
  Rand := option Z;
  JWK := string;
  hash_Sum := sum;
  ecdsa_GenerateKey c rnd :=
    match rnd with
    | None => inr "rand: reader failed"
    | Some d => inl (key c d)
    end;
  ecdsa_Sign := sign;
  jwksupport_JWKFromKey pk := inl (Name (Params (Curve pk)));
  elliptic_Marshal := marshal
|}.

(** The matching check: a public key of this instance lets the verifier
    recompute the second component from the first. *)
Definition verify (pk : ecdsa_PublicKey) (hashed : list byte) (r s : Z) : bool :=
  let c := Curve pk in
  (0 <? r) && (r <? N (Params c))
  && (s =? into_order c (big_SetBytes hashed + r * (X pk - 1) + (r - 1))).

#[export] Instance verifyPrimitive : verifier.VerifyPrimitive :=
  {| verifier.ecdsa_Verify := verify |}.

Definition msg : list byte := String.list_byte_of_string "msg".

Definition nonce : option Z := Some 0x0123456789abcdef.

(** The signer [NewECDSASigner P521 (Some 7)] builds. *)
Definition signer521 : ECDSASigner :=
  {| privateKey := key P521 7;
     PubKey := pub (key P521 7);
     PubKeyJWK := "P-521";
     pubKeyBytes :=
       Byte.x04 :: replicate 65 Byte.x00 ++ [Byte.x08]
                ++ replicate 65 Byte.x00 ++ [Byte.x09];
     hash := SHA512;
     alg := "ES521" |}.

(** The signature [Sign signer521 nonce msg] returns. *)
Definition sig521 : list byte :=
  Eval vm_compute in
    match Sign signer521 nonce msg with
    | Returns (Some sig, _) => sig
    | _ => []
    end.

(** A curve outside the table: the parameters of P-224. *)
Definition p224 : elliptic_Curve :=
  OtherCurve {| Name := "P-224"; BitSize := 224;
                N := 0xffffffffffffffffffffffffffff16a2e0b8f03e13dd29455c5c2a3d |}.



End stub.

(** ** Runnable collaborators of the proof manager

    A canonicalizer that serializes the document content and the fields of
    the proof at the given index other than its signature value, and a toy
    keyed suite whose signature is the key followed by the message; enough
    to run attachment and verification on concrete documents. *)

Module toy.
Import golang verifiable manager fixtures.

Definition bytes (s : string) : list byte := String.list_byte_of_string s.

Definition canonical (d : Document) (index : nat) : list byte + error :=
  match proofs d !! index with
  | None => inr "canonicalize: no such proof"
  | Some p =>
      inl (bytes (content d +:+ "|" +:+ type_ p +:+ "|"
                  +:+ gotime.Format (created p) +:+ "|"
                  +:+ verificationMethod p +:+ "|" +:+ proofPurpose p))
  end.

Definition token (alg : string) (signature : list byte) : list byte :=
  bytes (alg +:+ "..") ++ signature.

Definition keyedVerify (pk : suite.PublicKey) (message signature : list byte)
    : option error :=
  match suite.JWK pk with
  | None => Some "no key"
  | Some key =>
      if decide (signature = token "EdDSA" (bytes key ++ message)) then None
      else if decide (signature = bytes key ++ message) then None
      else Some "invalid signature"
  end.

Definition keyedSuite (key : option string) : Suite :=
  {| suiteAlg := "EdDSA";
     suiteSign message :=
       match key with
       | Some k => inl (bytes k ++ message)
       | None => inr "no signer"
       end;
     suiteVerify := keyedVerify |}.

#[export] Instance collaborators : Collaborators :=
  {| canonicalize := canonical;
     suiteFor type :=
       if decide (type = "Ed25519Signature2018") then Some (keyedSuite None)
       else None;
     encodeToken := token |}.

Definition signerWith (key : string) : CryptoSigner :=
  {| ed25519signature2018_New := keyedSuite (Some key); PublicJWK := key |}.

Definition signer1 : CryptoSigner := signerWith "jwk-one".
Definition signer2 : CryptoSigner := signerWith "jwk-two".

Definition created : interop.Time :=
  {| interop.year := 2024; interop.month := 5; interop.day := 17;
     interop.hour := 9; interop.minute := 30; interop.second := 0;
     interop.nanosecond := 0; interop.offset := 0 |}.

Definition credential : Document :=
  {| content := "valid_credential"; proofs := [] |}.

(** The document and fetcher of the fixture on these inputs. *)
Definition fixture : option (Document * PublicKeyFetcher) :=
  createVCWithTwoLinkedDataProofs (Some credential, None) created
    signer1 signer2.

Definition vc : Document :=
  match fixture with
  | Some (vc, _) => vc
  | None => credential
  end.

(** A third proof, under a key identifier the fixture's fetcher does not
    know. *)
Definition vc_key3 : Document :=
  fst (AttachProof created vc
         {| SignatureType := "Ed25519Signature2018";
            Suite_ := keyedSuite (Some "jwk-three");
            SignatureRepresentation_ := SignatureProofValue;
            Created := None;
            VerificationMethod := "did:123#key3";
            Purpose := "assertionMethod" |}).





(** A resolver that returns an error for unknown key identifiers. *)
Definition lenientFetcher : PublicKeyFetcher :=
  fun issuerID keyID =>
    if decide (keyID = "#key1" ∨ keyID = "#key2")
    then twoKeyFetcher signer1 signer2 issuerID keyID
    else Returns (inr "key not found").

End toy.

(* ===================================================================== *)
(** * Part II: properties *)
(* ===================================================================== *)

(** Unfolds the per-curve constructors a dispatcher has selected. *)
Ltac unfold_constructors :=
  unfold signer.NewECDSAP256Signer, signer.NewECDSAP384Signer,
    signer.NewECDSAP521Signer, signer.NewECDSASecp256k1Signer,
    signer.GetECDSAP256Signer, signer.GetECDSAP384Signer,
    signer.GetECDSAP521Signer, signer.GetECDSASecp256k1Signer in *.

(** ** Byte strings and big-endian numbers *)

Section Bytes.
Import golang.

Lemma byte_of_N_to_N (n : N) : Byte.to_N (byte_of_N n) = (n mod 256)%N.
Proof.
  unfold byte_of_N.
  destruct (Byte.of_N (n mod 256)%N) as [b|] eqn:E.
  - simpl. by apply Byte.to_of_N.
  - apply Byte.of_N_None_iff in E.
    pose proof (N.mod_lt n 256). lia.
Qed.

Lemma be_value_acc (b : list byte) (acc : N) :
  fold_left (fun a d => (a * 256 + Byte.to_N d)%N) b acc
  = (acc * 256 ^ N.of_nat (length b) + be_value b)%N.
Proof.
  unfold be_value. revert acc.
  induction b as [|d b IH]; intros acc.
  - simpl. lia.
  - cbn [fold_left length]. rewrite IH, (IH (0 * 256 + _)%N).
    rewrite Nat2N.inj_succ, N.pow_succ_r'. lia.
Qed.

Lemma be_value_app (b1 b2 : list byte) :
  be_value (b1 ++ b2)
  = (be_value b1 * 256 ^ N.of_nat (length b2) + be_value b2)%N.
Proof.
  unfold be_value at 1. rewrite fold_left_app.
  fold (be_value b1). apply be_value_acc.
Qed.

Lemma be_value_zeros (k : nat) : be_value (replicate k Byte.x00) = 0%N.
Proof.
  induction k as [|k IH]; [done|].
  change (replicate (S k) Byte.x00) with ([Byte.x00] ++ replicate k Byte.x00).
  rewrite be_value_app, IH. done.
Qed.

(** Leading zero bytes do not change the value. *)
Lemma be_value_padded (k : nat) (b : list byte) :
  be_value (replicate k Byte.x00 ++ b) = be_value b.
Proof. rewrite be_value_app, be_value_zeros. lia. Qed.

Lemma N_size_div256 (n : N) :
  n ≠ 0%N → (N.size (n / 256) < N.size n)%N.
Proof.
  intros Hn.
  destruct (N.eq_dec (n / 256) 0)%N as [Hq|Hq].
  - rewrite Hq. destruct n; [done|]. simpl. lia.
  - rewrite !N.size_log2 by done.
    assert (n / 256 <= n / 2)%N.
    { apply N.div_le_compat_l. lia. }
    assert (N.log2 (n / 2) = N.log2 n - 1)%N.
    { rewrite <- N.div2_div. rewrite N.div2_spec. apply N.log2_shiftr. }
    assert (N.log2 (n / 256) <= N.log2 (n / 2))%N by (by apply N.log2_le_mono).
    assert (0 < N.log2 n)%N.
    { apply N.log2_pos. destruct (N.lt_ge_cases n 2) as [Hlt|]; [|lia].
      assert (n / 256 = 0)%N; [apply N.div_small; lia|done]. }
    lia.
Qed.

(** With enough fuel the digits denote the number. *)
Lemma le_digits_value (fuel : nat) (n : N) :
  (N.size n <= N.of_nat fuel)%N →
  be_value (rev (le_digits fuel n)) = n.
Proof.
  revert n. induction fuel as [|fuel IH]; intros n Hfuel.
  - destruct n; [done|]. simpl in Hfuel. lia.
  - cbn [le_digits]. destruct (N.eqb_spec n 0) as [->|Hn]; [done|].
    cbn [rev]. rewrite be_value_app. cbn [length be_value fold_left].
    rewrite IH by (pose proof (N_size_div256 n Hn); lia).
    rewrite byte_of_N_to_N.
    pose proof (N.div_mod n 256). lia.
Qed.

(** The digit string is as short as the number allows. *)
Lemma le_digits_length_le (fuel : nat) (n : N) (k : nat) :
  (n < 256 ^ N.of_nat k)%N → (length (le_digits fuel n) <= k)%nat.
Proof.
  revert n k. induction fuel as [|fuel IH]; intros n k Hn; [simpl; lia|].
  cbn [le_digits]. destruct (N.eqb_spec n 0) as [->|Hn0]; [simpl; lia|].
  destruct k as [|k]; [simpl in Hn; lia|].
  cbn [length]. apply le_n_S, IH.
  rewrite Nat2N.inj_succ, N.pow_succ_r' in Hn.
  apply N.Div0.div_lt_upper_bound. lia.
Qed.

Lemma le_digits_length_gt (fuel : nat) (n : N) (k : nat) :
  (N.size n <= N.of_nat fuel)%N →
  (256 ^ N.of_nat k <= n)%N → (k < length (le_digits fuel n))%nat.
Proof.
  revert fuel n. induction k as [|k IH]; intros fuel n Hfuel Hn.
  - destruct fuel as [|fuel].
    + destruct n; simpl in *; lia.
    + cbn [le_digits]. destruct (N.eqb_spec n 0) as [->|]; simpl in *; lia.
  - assert (n ≠ 0%N).
    { pose proof (N.pow_nonzero 256 (N.of_nat (S k)) ltac:(done)). lia. }
    destruct fuel as [|fuel]; [destruct n; simpl in *; lia|].
    cbn [le_digits]. destruct (N.eqb_spec n 0) as [|_]; [done|].
    cbn [length]. apply -> Nat.succ_lt_mono. apply IH.
    + pose proof (N_size_div256 n ltac:(done)). lia.
    + rewrite Nat2N.inj_succ, N.pow_succ_r' in Hn.
      apply N.div_le_lower_bound; lia.
Qed.

(** [SetBytes] undoes [Bytes] up to the sign, which [Bytes] drops. *)
Lemma big_SetBytes_Bytes (x : Z) : big_SetBytes (big_Bytes x) = Z.abs x.
Proof.
  unfold big_SetBytes, big_Bytes.
  rewrite le_digits_value by lia. lia.
Qed.

Lemma big_Bytes_length_le (x : Z) (k : nat) :
  Z.abs x < 256 ^ Z.of_nat k → (length (big_Bytes x) <= k)%nat.
Proof.
  intros Hx. unfold big_Bytes. rewrite length_rev.
  apply le_digits_length_le.
  apply N2Z.inj_lt. rewrite N2Z.inj_pow, N2Z.inj_abs_N, nat_N_Z. done.
Qed.

Lemma big_Bytes_length_gt (x : Z) (k : nat) :
  256 ^ Z.of_nat k <= Z.abs x → (k < length (big_Bytes x))%nat.
Proof.
  intros Hx. unfold big_Bytes. rewrite length_rev.
  apply le_digits_length_gt; [lia|].
  apply N2Z.inj_le. rewrite N2Z.inj_pow, N2Z.inj_abs_N, nat_N_Z. done.
Qed.

End Bytes.

(** ** The ECDSA signer *)

Section SignerProperties.
Import golang signer.
Context `{Primitives}.

Lemma keyBytesOf_ceil (bits : Z) : 0 <= bits → keyBytesOf bits = ceil_div8 bits.
Proof.
  intros Hbits. unfold keyBytesOf, ceil_div8.
  rewrite Z.quot_div_nonneg, Z.rem_mod_nonneg by lia.
  pose proof (Z.div_mod bits 8 ltac:(lia)).
  pose proof (Z.mod_pos_bound bits 8 ltac:(lia)).
  destruct (Z.gtb_spec (bits mod 8) 0).
  - apply Z.div_unique with (r := bits mod 8 - 1); lia.
  - apply Z.div_unique with (r := 7); lia.
Qed.

Lemma keyBytesOf_supported (c : elliptic_Curve) :
  supported c = true →
  keyBytesOf (BitSize (Params c))
  = match c with P256 | S256 => 32 | P384 => 48 | P521 => 66 | OtherCurve _ => 0 end.
Proof. by destruct c. Qed.

(** The order of every supported curve fits the fixed width. *)
Lemma order_fits_supported (c : elliptic_Curve) :
  supported c = true →
  N (Params c) <= 256 ^ keyBytesOf (BitSize (Params c)).
Proof.
  intros Hs. destruct c; try discriminate Hs; apply Z.leb_le; vm_compute;
    reflexivity.
Qed.

(** [copyPadded] left-pads with zero bytes when the source fits. *)
Lemma copyPadded_fits (source : list byte) (size : Z) :
  Z.of_nat (length source) <= size →
  copyPadded source size
  = Returns (replicate (Z.to_nat size - length source) Byte.x00 ++ source).
Proof.
  intros Hfit. unfold copyPadded, make_bytes, slice_from.
  destruct (Z.ltb_spec size 0); [lia|]. cbn [mbind outcome_bind bind].
  rewrite length_replicate.
  destruct (Z.ltb_spec (size - Z.of_nat (length source)) 0); [lia|].
  destruct (Z.ltb_spec (Z.of_nat (Z.to_nat size)) (size - Z.of_nat (length source)));
    [lia|].
  cbn [orb mbind outcome_bind bind]. f_equal. unfold copy.
  replace (Z.to_nat (size - Z.of_nat (length source)))
    with (Z.to_nat size - length source)%nat by lia.
  rewrite take_replicate, !drop_replicate, length_replicate.
  replace (Z.to_nat size - (Z.to_nat size - length source))%nat
    with (length source) by lia.
  rewrite take_ge by lia.
  rewrite Nat.sub_diag, app_nil_r. f_equal. f_equal. lia.
Qed.

(** ... and panics on the slice expression when it does not. *)
Lemma copyPadded_too_long (source : list byte) (size : Z) :
  size < Z.of_nat (length source) → panics (copyPadded source size).
Proof.
  intros Hlong. unfold copyPadded, make_bytes, slice_from.
  destruct (Z.ltb_spec size 0); [done|]. cbn [mbind outcome_bind bind].
  destruct (Z.ltb_spec (size - Z.of_nat (length source)) 0); [done|lia].
Qed.

Lemma copyPadded_length (source padded : list byte) (size : Z) :
  copyPadded source size = Returns padded → Z.of_nat (length padded) = size.
Proof.
  destruct (Z.le_gt_cases (Z.of_nat (length source)) size) as [Hfit|Hlong].
  - rewrite copyPadded_fits by done. intros [= <-].
    rewrite length_app, length_replicate. lia.
  - pose proof (copyPadded_too_long source size ltac:(lia)) as Hp.
    intros E. rewrite E in Hp. done.
Qed.

Lemma copyPadded_inv (source padded : list byte) (size : Z) :
  copyPadded source size = Returns padded →
  Z.of_nat (length source) <= size
  ∧ padded = replicate (Z.to_nat size - length source) Byte.x00 ++ source.
Proof.
  destruct (Z.le_gt_cases (Z.of_nat (length source)) size) as [Hfit|Hlong].
  - rewrite copyPadded_fits by done. by intros [= <-].
  - pose proof (copyPadded_too_long source size ltac:(lia)) as Hp.
    intros E. rewrite E in Hp. done.
Qed.

Lemma newECDSASigner_fields (privKey : ecdsa_PrivateKey)
    (pubKey : ecdsa_PublicKey) (h : Hash) (a : string) (es : ECDSASigner) :
  value (newECDSASigner privKey pubKey h a) = Some es →
  privateKey es = privKey ∧ PubKey es = pubKey ∧ hash es = h ∧ alg es = a.
Proof.
  unfold newECDSASigner.
  destruct (jwksupport_JWKFromKey pubKey); [|done].
  destruct (elliptic_Marshal _ _ _); [|done].
  by intros [= <-].
Qed.

Lemma newECDSASigner_exclusive (privKey : ecdsa_PrivateKey)
    (pubKey : ecdsa_PublicKey) (h : Hash) (a : string)
    (res : result ECDSASigner) :
  newECDSASigner privKey pubKey h a = Returns res → exclusive res.
Proof.
  unfold newECDSASigner.
  destruct (jwksupport_JWKFromKey pubKey); [|by intros [= <-]].
  destruct (elliptic_Marshal _ _ _); [|done]. by intros [= <-].
Qed.

(** [signEcdsa] when the library returns the pair [(r, s)]. *)
Lemma signEcdsa_signed (rnd : Rand) (msg : list byte)
    (priv : ecdsa_PrivateKey) (h : Hash) (r s : Z) :
  ecdsa_Sign rnd priv (hash_Sum h msg) = inl (r, s) →
  signEcdsa rnd msg priv h
  = (rBytes ← copyPadded (big_Bytes r)
                (keyBytesOf (BitSize (Params (Curve (pub priv)))));
     sBytes ← copyPadded (big_Bytes s)
                (keyBytesOf (BitSize (Params (Curve (pub priv)))));
     Returns (Some (append rBytes sBytes), None)).
Proof. intros E. unfold signEcdsa. by rewrite E. Qed.

(** A returned signature comes from a returned pair [(r, s)], each of whose
    components fitted the fixed width. *)
Lemma signEcdsa_inv (rnd : Rand) (msg : list byte) (priv : ecdsa_PrivateKey)
    (h : Hash) (sig : list byte) (e : option error) :
  signEcdsa rnd msg priv h = Returns (Some sig, e) →
  let keyBytes := keyBytesOf (BitSize (Params (Curve (pub priv)))) in
  ∃ r s,
    ecdsa_Sign rnd priv (hash_Sum h msg) = inl (r, s)
    ∧ copyPadded (big_Bytes r) keyBytes
      = Returns (replicate (Z.to_nat keyBytes - length (big_Bytes r))
                   Byte.x00 ++ big_Bytes r)
    ∧ copyPadded (big_Bytes s) keyBytes
      = Returns (replicate (Z.to_nat keyBytes - length (big_Bytes s))
                   Byte.x00 ++ big_Bytes s)
    ∧ sig = (replicate (Z.to_nat keyBytes - length (big_Bytes r)) Byte.x00
               ++ big_Bytes r)
            ++ (replicate (Z.to_nat keyBytes - length (big_Bytes s)) Byte.x00
                  ++ big_Bytes s)
    ∧ e = None.
Proof.
  intros Hsig keyBytes.
  destruct (ecdsa_Sign rnd priv (hash_Sum h msg)) as [[r s]|err] eqn:E.
  - rewrite (signEcdsa_signed _ _ _ _ _ _ E) in Hsig. fold keyBytes in Hsig.
    destruct (copyPadded (big_Bytes r) keyBytes) as [rBytes|] eqn:Er; [|done].
    destruct (copyPadded (big_Bytes s) keyBytes) as [sBytes|] eqn:Es; [|done].
    cbn [mbind outcome_bind bind] in Hsig.
    apply copyPadded_inv in Er as [Hr ->]. apply copyPadded_inv in Es as [Hs ->].
    injection Hsig as <- <-. exists r, s.
    by rewrite !copyPadded_fits.
  - unfold signEcdsa in Hsig. by rewrite E in Hsig.
Qed.

(** The two halves of a returned signature. *)
Lemma Sign_fixed_width_parts (es : ECDSASigner) (rnd : Rand)
    (msg sig : list byte) :
  Sign es rnd msg = Returns (Some sig, None) →
  ∃ (r s : Z) (rBytes sBytes : list byte),
    ecdsa_Sign rnd (privateKey es) (hash_Sum (hash es) msg) = inl (r, s)
    ∧ sig = rBytes ++ sBytes
    ∧ Z.of_nat (length rBytes)
      = keyBytesOf (BitSize (Params (Curve (pub (privateKey es)))))
    ∧ Z.of_nat (length sBytes)
      = keyBytesOf (BitSize (Params (Curve (pub (privateKey es)))))
    ∧ big_SetBytes rBytes = Z.abs r
    ∧ big_SetBytes sBytes = Z.abs s.
Proof.
  intros Hsig. unfold Sign in Hsig.
  destruct (signEcdsa_inv _ _ _ _ _ _ Hsig) as (r & s & E & Hr & Hs & -> & _).
  exists r, s. eexists _, _. split; [exact E|]. split; [reflexivity|].
  split; [exact (copyPadded_length _ _ _ Hr)|].
  split; [exact (copyPadded_length _ _ _ Hs)|].
  unfold big_SetBytes. rewrite !be_value_padded.
  split; apply big_SetBytes_Bytes.
Qed.

(** C1.  A successful [Sign] returns exactly the two signature components
    [(r, s)] of the ECDSA primitive, each as a big-endian byte string
    left-padded with zero bytes to [keyBytes = ceil(curve_bit_size / 8)]
    bytes, concatenated (no ASN.1/DER framing).  Its length is therefore
    exactly [2 * keyBytes]: 64 bytes for P-256, 96 for P-384, 132 for P-521
    and 64 for secp256k1. *)
Theorem Sign_fixed_width_encoding (es : ECDSASigner) (rnd : Rand)
    (msg sig : list byte) :
  Sign es rnd msg = Returns (Some sig, None) →
  let c := Curve (pub (privateKey es)) in
  let keyBytes := keyBytesOf (BitSize (Params c)) in
  ∃ (r s : Z) (rBytes sBytes : list byte),
    ecdsa_Sign rnd (privateKey es) (hash_Sum (hash es) msg) = inl (r, s)
    ∧ sig = rBytes ++ sBytes
    ∧ rBytes = replicate (Z.to_nat keyBytes - length (big_Bytes r)) Byte.x00
               ++ big_Bytes r
    ∧ sBytes = replicate (Z.to_nat keyBytes - length (big_Bytes s)) Byte.x00
               ++ big_Bytes s
    ∧ Z.of_nat (length rBytes) = keyBytes
    ∧ Z.of_nat (length sBytes) = keyBytes
    ∧ big_SetBytes rBytes = Z.abs r
    ∧ big_SetBytes sBytes = Z.abs s
    ∧ Z.of_nat (length sig) = 2 * keyBytes
    ∧ (supported c = true →
       keyBytes = ceil_div8 (BitSize (Params c))
       ∧ length sig = match c with
                      | P256 | S256 => 64
                      | P384 => 96
                      | P521 => 132
                      | OtherCurve _ => 0
                      end%nat).
Proof.
  intros Hsig c keyBytes. unfold Sign in Hsig.
  destruct (signEcdsa_inv _ _ _ _ _ _ Hsig) as (r & s & E & Hr & Hs & -> & _).
  fold c keyBytes in Hr, Hs |- *.
  pose proof (copyPadded_length _ _ _ Hr) as Lr.
  pose proof (copyPadded_length _ _ _ Hs) as Ls.
  assert (Z.of_nat (length
            ((replicate (Z.to_nat keyBytes - length (big_Bytes r)) Byte.x00
                ++ big_Bytes r)
             ++ replicate (Z.to_nat keyBytes - length (big_Bytes s)) Byte.x00
                ++ big_Bytes s)) = 2 * keyBytes) as Lsig.
  { rewrite (length_app (_ ++ _)). lia. }
  exists r, s. eexists _, _.
  split; [exact E|]. split; [reflexivity|]. split; [reflexivity|].
  split; [reflexivity|]. split; [exact Lr|]. split; [exact Ls|].
  split; [|split; [|split; [exact Lsig|]]].
  - unfold big_SetBytes. rewrite be_value_padded. apply big_SetBytes_Bytes.
  - unfold big_SetBytes. rewrite be_value_padded. apply big_SetBytes_Bytes.
  - intros Hsup. split.
    + apply keyBytesOf_ceil. by destruct c.
    + pose proof (keyBytesOf_supported c Hsup) as Hk. fold keyBytes in Hk.
      destruct c; try discriminate Hsup; lia.
Qed.


(** The precondition of C10 is what keeps [copyPadded] in bounds: a
    component too large for the fixed width makes [signEcdsa] panic. *)
Lemma signEcdsa_oversized_panics (rnd : Rand) (msg : list byte)
    (priv : ecdsa_PrivateKey) (h : Hash) (r s : Z) :
  let keyBytes := keyBytesOf (BitSize (Params (Curve (pub priv)))) in
  ecdsa_Sign rnd priv (hash_Sum h msg) = inl (r, s) →
  256 ^ keyBytes <= Z.abs r →
  panics (signEcdsa rnd msg priv h).
Proof.
  intros keyBytes E Hbig. rewrite (signEcdsa_signed _ _ _ _ _ _ E).
  fold keyBytes.
  assert (panics (copyPadded (big_Bytes r) keyBytes)) as Hp.
  { destruct (Z.lt_ge_cases keyBytes 0) as [Hneg|Hpos].
    - unfold copyPadded, make_bytes.
      by destruct (Z.ltb_spec keyBytes 0); [|lia].
    - apply copyPadded_too_long.
      pose proof (big_Bytes_length_gt r (Z.to_nat keyBytes)) as Hgt.
      rewrite Z2Nat.id in Hgt by done. lia. }
  by destruct (copyPadded (big_Bytes r) keyBytes).
Qed.

(** C3.  Construction for a curve outside the supported table fails with
    the error "unsupported curve" and a nil signer, through [NewECDSASigner]
    and through [GetECDSASigner]; a key-generation failure aborts
    construction with that error and a nil signer; a failure of the signing
    primitive makes [Sign] return that error and a nil signature.  No call
    ever returns a value together with an error, or neither. *)
Theorem failures_return_error_only :
  (∀ (params : CurveParams) (rnd : Rand),
     NewECDSASigner (OtherCurve params) rnd
     = Returns (None, Some "unsupported curve"))
  ∧ (∀ privKey : ecdsa_PrivateKey,
       supported (Curve (pub privKey)) = false →
       GetECDSASigner privKey = Returns (None, Some "unsupported curve"))
  ∧ (∀ (c : elliptic_Curve) (rnd : Rand) (err : error),
       supported c = true →
       ecdsa_GenerateKey c rnd = inr err →
       NewECDSASigner c rnd = Returns (None, Some err))
  ∧ (∀ (es : ECDSASigner) (rnd : Rand) (msg : list byte) (err : error),
       ecdsa_Sign rnd (privateKey es) (hash_Sum (hash es) msg) = inr err →
       Sign es rnd msg = Returns (None, Some err))
  ∧ (∀ (c : elliptic_Curve) (rnd : Rand) (res : result ECDSASigner),
       NewECDSASigner c rnd = Returns res → exclusive res)
  ∧ (∀ (privKey : ecdsa_PrivateKey) (res : result ECDSASigner),
       GetECDSASigner privKey = Returns res → exclusive res)
  ∧ (∀ (es : ECDSASigner) (rnd : Rand) (msg : list byte)
       (res : result (list byte)),
       Sign es rnd msg = Returns res → exclusive res).
Proof.
  split; [done|]. split.
  { intros privKey Hc. unfold GetECDSASigner.
    by destruct (Curve (pub privKey)). }
  split.
  { intros c rnd err Hc E.
    destruct c; try discriminate Hc; cbn [NewECDSASigner];
      unfold_constructors; by rewrite E. }
  split.
  { intros es rnd msg err E. unfold Sign, signEcdsa. by rewrite E. }
  split.
  { intros c rnd res.
    destruct c; cbn [NewECDSASigner]; [unfold_constructors..|by intros [= <-]];
      (destruct (ecdsa_GenerateKey _ rnd);
       [apply newECDSASigner_exclusive|by intros [= <-]]). }
  split.
  { intros privKey res. unfold GetECDSASigner.
    destruct (Curve (pub privKey)); [unfold_constructors..|by intros [= <-]];
      apply newECDSASigner_exclusive. }
  intros es rnd msg res. unfold Sign, signEcdsa.
  destruct (ecdsa_Sign rnd (privateKey es) (hash_Sum (hash es) msg))
    as [[r s]|err]; [|by intros [= <-]].
  destruct (copyPadded (big_Bytes r) _); [|done].
  destruct (copyPadded (big_Bytes s) _); [|done].
  by intros [= <-].
Qed.

(** What [newECDSASigner] returns when the JWK export succeeds and the
    point marshals. *)
Lemma newECDSASigner_returns (privKey : ecdsa_PrivateKey)
    (pubKey : ecdsa_PublicKey) (h : Hash) (a : string) (jwk : JWK)
    (marshalled : list byte) :
  jwksupport_JWKFromKey pubKey = inl jwk →
  elliptic_Marshal (Curve pubKey) (X pubKey) (Y pubKey) = Returns marshalled →
  newECDSASigner privKey pubKey h a
  = Returns (Some {| privateKey := privKey; PubKey := pubKey;
                     PubKeyJWK := jwk; pubKeyBytes := marshalled;
                     hash := h; alg := a |}, None).
Proof. intros Hjwk Hbytes. unfold newECDSASigner. by rewrite Hjwk, Hbytes. Qed.

(** The binding of one curve: the constructor pair of the curve builds
    signers whenever the library calls succeed, and every signer it returns
    carries the hash [h] and the identifier [a] and hands the digest of the
    message under [h] to the signing primitive. *)
Lemma per_curve_binding (c : elliptic_Curve) (h : Hash) (a : string) :
  let new := λ rnd : Rand,
    match ecdsa_GenerateKey c rnd with
    | inl privKey => newECDSASigner privKey (pub privKey) h a
    | inr err => Returns (None, Some err)
    end in
  let get := λ privKey : ecdsa_PrivateKey,
    newECDSASigner privKey (pub privKey) h a in
  (∀ (rnd : Rand) (privKey : ecdsa_PrivateKey) (jwk : JWK)
     (marshalled : list byte),
     ecdsa_GenerateKey c rnd = inl privKey →
     jwksupport_JWKFromKey (pub privKey) = inl jwk →
     elliptic_Marshal (Curve (pub privKey)) (X (pub privKey)) (Y (pub privKey))
     = Returns marshalled →
     ∃ es : ECDSASigner,
       new rnd = Returns (Some es, None) ∧ privateKey es = privKey)
  ∧ (∀ (privKey : ecdsa_PrivateKey) (jwk : JWK) (marshalled : list byte),
       jwksupport_JWKFromKey (pub privKey) = inl jwk →
       elliptic_Marshal (Curve (pub privKey)) (X (pub privKey))
         (Y (pub privKey)) = Returns marshalled →
       ∃ es : ECDSASigner,
         get privKey = Returns (Some es, None) ∧ privateKey es = privKey)
  ∧ (∀ (rnd : Rand) (privKey : ecdsa_PrivateKey) (es : ECDSASigner),
       value (new rnd) = Some es ∨ value (get privKey) = Some es →
       hash es = h ∧ Alg es = a
       ∧ ∀ (rnd' : Rand) (msg : list byte),
           Sign es rnd' msg
           = match ecdsa_Sign rnd' (privateKey es) (hash_Sum h msg) with
             | inr err => Returns (None, Some err)
             | inl (r, s) =>
                 let keyBytes :=
                   keyBytesOf (BitSize (Params (Curve (pub (privateKey es)))))
                 in
                 rBytes ← copyPadded (big_Bytes r) keyBytes;
                 sBytes ← copyPadded (big_Bytes s) keyBytes;
                 Returns (Some (rBytes ++ sBytes), None)
             end).
Proof.
  intros new get. subst new get. cbv beta. split; [|split].
  - intros rnd privKey jwk marshalled -> Hjwk Hbytes.
    rewrite (newECDSASigner_returns _ _ _ _ _ _ Hjwk Hbytes). by eexists.
  - intros privKey jwk marshalled Hjwk Hbytes.
    rewrite (newECDSASigner_returns _ _ _ _ _ _ Hjwk Hbytes). by eexists.
  - intros rnd privKey es Hbuilt.
    assert (hash es = h ∧ alg es = a) as [Hh Ha].
    { destruct Hbuilt as [E|E].
      - destruct (ecdsa_GenerateKey c rnd); [|done].
        apply newECDSASigner_fields in E. tauto.
      - apply newECDSASigner_fields in E. tauto. }
    split; [done|]. split; [done|]. intros rnd' msg.
    unfold Sign, signEcdsa. rewrite Hh.
    by destruct (ecdsa_Sign rnd' (privateKey es) (hash_Sum h msg)) as [[r s]|].
Qed.

(** C4.  Each per-curve signer binds the table's hash and algorithm
    identifier: P-256 with SHA-256 and "ES256", P-384 with SHA-384 and
    "ES384", P-521 with SHA-512 and the identifier [P521Alg] of the
    fixtures, which is "ES521" and differs from the conventional "ES512",
    and secp256k1 with SHA-256 and "ES256K".  For each row, the constructor
    pair of the curve returns a signer over the generated, respectively
    given, key whenever key generation, the JWK export and the marshalling
    of the point succeed; every signer it returns reports the row's
    identifier from [Alg()], and its [Sign] hands the digest of the message
    under the row's hash to the signing primitive and returns that call's
    error or the fixed-width encoding of its pair.  The dispatching
    constructors pick the row of the curve. *)
Theorem signer_bindings :
  Forall
    (λ '(c, new, get, h, a),
       (∀ (rnd : Rand) (privKey : ecdsa_PrivateKey) (jwk : JWK)
          (marshalled : list byte),
          ecdsa_GenerateKey c rnd = inl privKey →
          jwksupport_JWKFromKey (pub privKey) = inl jwk →
          elliptic_Marshal (Curve (pub privKey)) (X (pub privKey))
            (Y (pub privKey)) = Returns marshalled →
          ∃ es : ECDSASigner,
            new rnd = Returns (Some es, None) ∧ privateKey es = privKey)
       ∧ (∀ (privKey : ecdsa_PrivateKey) (jwk : JWK)
            (marshalled : list byte),
            jwksupport_JWKFromKey (pub privKey) = inl jwk →
            elliptic_Marshal (Curve (pub privKey)) (X (pub privKey))
              (Y (pub privKey)) = Returns marshalled →
            ∃ es : ECDSASigner,
              get privKey = Returns (Some es, None)
              ∧ privateKey es = privKey)
       ∧ (∀ (rnd : Rand) (privKey : ecdsa_PrivateKey) (es : ECDSASigner),
            value (new rnd) = Some es ∨ value (get privKey) = Some es →
            hash es = h ∧ Alg es = a
            ∧ ∀ (rnd' : Rand) (msg : list byte),
                Sign es rnd' msg
                = match ecdsa_Sign rnd' (privateKey es) (hash_Sum h msg) with
                  | inr err => Returns (None, Some err)
                  | inl (r, s) =>
                      let keyBytes :=
                        keyBytesOf
                          (BitSize (Params (Curve (pub (privateKey es)))))
                      in
                      rBytes ← copyPadded (big_Bytes r) keyBytes;
                      sBytes ← copyPadded (big_Bytes s) keyBytes;
                      Returns (Some (rBytes ++ sBytes), None)
                  end))
    [(P256, NewECDSAP256Signer, GetECDSAP256Signer, SHA256, "ES256");
     (P384, NewECDSAP384Signer, GetECDSAP384Signer, SHA384, "ES384");
     (P521, NewECDSAP521Signer, GetECDSAP521Signer, SHA512, P521Alg);
     (S256, NewECDSASecp256k1Signer, GetECDSASecp256k1Signer, SHA256,
      "ES256K")]
  ∧ (∀ (c : elliptic_Curve) (rnd : Rand) (privKey : ecdsa_PrivateKey)
       (es : ECDSASigner),
       value (NewECDSASigner c rnd) = Some es
       ∨ (value (GetECDSASigner privKey) = Some es
          ∧ Curve (pub privKey) = c) →
       match c with
       | P256 => hash es = SHA256 ∧ Alg es = "ES256"
       | P384 => hash es = SHA384 ∧ Alg es = "ES384"
       | P521 => hash es = SHA512 ∧ Alg es = P521Alg
       | S256 => hash es = SHA256 ∧ Alg es = "ES256K"
       | OtherCurve _ => False
       end)
  ∧ P521Alg = "ES521" ∧ P521Alg ≠ "ES512".
Proof.
  split; [|split; [|done]].
  - constructor; [exact (per_curve_binding P256 SHA256 P256Alg)|].
    constructor; [exact (per_curve_binding P384 SHA384 P384Alg)|].
    constructor; [exact (per_curve_binding P521 SHA512 P521Alg)|].
    constructor; [exact (per_curve_binding S256 SHA256 Secp256Alg)|].
    constructor.
  - intros c rnd privKey es [E|[E <-]].
    + destruct c; cbn [NewECDSASigner] in E; [unfold_constructors..|done];
        (destruct (ecdsa_GenerateKey _ rnd); [|done]);
        apply newECDSASigner_fields in E as (_ & _ & Hh & Ha);
        (split; [exact Hh|exact Ha]).
    + unfold GetECDSASigner in E.
      destruct (Curve (pub privKey)); [unfold_constructors..|done];
        apply newECDSASigner_fields in E as (_ & _ & Hh & Ha);
        (split; [exact Hh|exact Ha]).
Qed.

End SignerProperties.

(** ** The theorems of the signer on concrete inputs *)

Section SignerWitnesses.
Import golang signer.
#[local] Existing Instance stub.primitives.

Lemma Sign_fixed_width_encoding_witness :
  Sign stub.signer521 stub.nonce stub.msg = Returns (Some stub.sig521, None)
  ∧ Z.of_nat (length stub.sig521) = 2 * 66
  ∧ length stub.sig521 = 132%nat.
Proof.
  assert (Sign stub.signer521 stub.nonce stub.msg
          = Returns (Some stub.sig521, None)) as Hsig
    by (vm_compute; reflexivity).
  split; [exact Hsig|].
  destruct (Sign_fixed_width_encoding (H := stub.primitives) _ _ _ _ Hsig)
    as (r & s & rBytes & sBytes & _ & _ & _ & _ & _ & _ & _ & _ & Hlen & Htab).
  split; [exact Hlen|]. exact (proj2 (Htab eq_refl)).
Defined.



Lemma failures_return_error_only_witness :
  NewECDSASigner stub.p224 (Some 7) = Returns (None, Some "unsupported curve")
  ∧ GetECDSASigner (stub.key stub.p224 7)
    = Returns (None, Some "unsupported curve")
  ∧ NewECDSASigner P384 None = Returns (None, Some "rand: reader failed")
  ∧ Sign stub.signer521 None stub.msg
    = Returns (None, Some "rand: reader failed").
Proof.
  destruct (failures_return_error_only (H := stub.primitives))
    as (Hnew & Hget & Hgen & Hsign & _).
  split; [apply Hnew|]. split; [by apply Hget|].
  split; [by apply Hgen|]. by apply Hsign.
Defined.

Lemma signer_bindings_witness :
  ∃ es : ECDSASigner,
    NewECDSAP521Signer (Some 7) = Returns (Some es, None)
    ∧ privateKey es = stub.key P521 7
    ∧ hash es = SHA512 ∧ Alg es = "ES521"
    ∧ Sign es None stub.msg = Returns (None, Some "rand: reader failed").
Proof.
  pose proof (proj1 (signer_bindings (H := stub.primitives))) as Hrows.
  apply (Forall_lookup_1 _ _ 2%nat
           (P521, NewECDSAP521Signer, GetECDSAP521Signer, SHA512, P521Alg))
    in Hrows; [|reflexivity].
  destruct Hrows as (Hnew & _ & Hbinds).
  destruct (Hnew (Some 7) (stub.key P521 7) "P-521"
              (Byte.x04 :: replicate 65 Byte.x00 ++ [Byte.x08]
                        ++ replicate 65 Byte.x00 ++ [Byte.x09])
              eq_refl eq_refl eq_refl) as (es & Hes & Hkey).
  exists es. split; [exact Hes|]. split; [exact Hkey|].
  destruct (Hbinds (Some 7) (stub.key P521 7) es) as (Hh & Ha & Hsign).
  { left. by rewrite Hes. }
  split; [exact Hh|]. split; [exact Ha|].
  by rewrite Hsign.
Defined.

End SignerWitnesses.

(** ** The opaque-backend adapter *)

Section AdapterProperties.
Import golang suite.

(** C5.  The adapter forwards verbatim.  For every backend, observed
    through the list of calls that reach it, and every message, the
    adapter's [Sign] makes exactly one call on the backend, [Sign] with the
    message unchanged, and returns what that call returned: the signature
    bytes unchanged with no error when the backend succeeds, the backend's
    error unchanged when it fails -- there is no second call, so no retry.
    Its [Verify] makes exactly one call, [Verify] with the same signature,
    message and key, and returns that call's result, the backend's error
    with the same message when the backend fails.  With the mock backend
    whose [SignVal] is "signature", [Sign([]byte("msg"))] is exactly
    "signature" with no error; with the mock backend whose [VerifyErr] is
    "verify error", [Verify] returns the error "verify error"; and over a
    backend that fails its first call and would answer the second, [Sign]
    and [Verify] return the first call's error. *)
Theorem adapter_forwards_verbatim :
  (∀ (B : Type) (backend_signs : SignerBackend B) (backend : B)
     (msg : list byte),
     ∃ signer : CryptoSigner (Observed B),
       NewCryptoWrapperSigner (observe backend) = Some signer
       ∧ fst (Sign signer msg) = fst (backend_Sign backend msg)
       ∧ calls (cr (snd (Sign signer msg))) = [SignCall msg]
       ∧ observed (cr (snd (Sign signer msg))) = snd (backend_Sign backend msg)
       ∧ (∀ signature : list byte,
            fst (backend_Sign backend msg) = (Some signature, None) →
            fst (Sign signer msg) = (Some signature, None))
       ∧ (∀ err : error,
            fst (backend_Sign backend msg) = (None, Some err) →
            fst (Sign signer msg) = (None, Some err)))
  ∧ (∀ (B : Type) (backend_verifies : VerifierBackend B) (backend : B)
       (pubKey : PublicKey) (msg signature : list byte),
       ∃ verifier : CryptoVerifier (Observed B),
         NewCryptoVerifier (observe backend) = Some verifier
         ∧ fst (Verify verifier pubKey msg signature)
           = fst (backend_Verify backend signature msg pubKey)
         ∧ calls (kc (snd (Verify verifier pubKey msg signature)))
           = [VerifyCall signature msg pubKey]
         ∧ observed (kc (snd (Verify verifier pubKey msg signature)))
           = snd (backend_Verify backend signature msg pubKey)
         ∧ (∀ err : error,
              fst (backend_Verify backend signature msg pubKey) = Some err →
              fst (Verify verifier pubKey msg signature) = Some err))
  ∧ TestNewCryptoSigner_signature = Some (Some (bytes "signature"), None)
  ∧ TestNewCryptoVerifier_err = Some (Some "verify error")
  ∧ (∃ signer : CryptoSigner (Observed FlakyCrypto),
       NewCryptoWrapperSigner (observe {| attempts := 0 |}) = Some signer
       ∧ fst (Sign signer (bytes "msg")) = (None, Some "backend unavailable")
       ∧ calls (cr (snd (Sign signer (bytes "msg"))))
         = [SignCall (bytes "msg")]
       ∧ fst (backend_Sign (observed (cr (snd (Sign signer (bytes "msg")))))
                (bytes "msg"))
         = (Some (bytes "signature"), None)).
Proof.
  split; [|split; [|split; [reflexivity|split; [reflexivity|]]]].
  - intros B ? backend msg. eexists. split; [reflexivity|].
    unfold Sign. cbn [cr observe backend_Sign Observed_signs observed calls].
    destruct (backend_Sign backend msg) as [res backend'].
    cbn [fst snd cr calls observed app]. repeat split; auto.
  - intros B ? backend pubKey msg signature. eexists. split; [reflexivity|].
    unfold Verify.
    cbn [kc observe backend_Verify Observed_verifies observed calls].
    destruct (backend_Verify backend signature msg pubKey) as [res backend'].
    cbn [fst snd kc calls observed app]. repeat split; auto.
  - eexists. split; [reflexivity|]. repeat split; reflexivity.
Qed.

Lemma adapter_forwards_verbatim_witness :
  ∃ signer : CryptoSigner (Observed MockFixedKeyCrypto),
    NewCryptoWrapperSigner
      (observe {| SignVal := Some (bytes "signature"); SignErr := None |})
    = Some signer
    ∧ fst (Sign signer (bytes "msg")) = (Some (bytes "signature"), None)
    ∧ calls (cr (snd (Sign signer (bytes "msg")))) = [SignCall (bytes "msg")].
Proof.
  destruct (proj1 adapter_forwards_verbatim MockFixedKeyCrypto _
              {| SignVal := Some (bytes "signature"); SignErr := None |}
              (bytes "msg")) as (signer & Hnew & _ & Hcalls & _ & Hok & _).
  exists signer. split; [exact Hnew|]. split; [|exact Hcalls].
  apply Hok. reflexivity.
Defined.

End AdapterProperties.

(** ** The interop time wrapper *)

Section WrapTimeProperties.
Import golang signer interop.

(** What C9 says of [wrapTime] does not hold:
    [time.Date(10000, 1, 1, 0, 0, 0, 0, time.UTC)] formats as
    [10000-01-01T00:00:00Z], which does not parse back; [ParseTimeWrapper]
    returns the error of [time.Parse], whatever its text, and [wrapTime]
    returns a nil wrapper and nothing else. *)
Lemma wrapTime_discards_parse_error :
  gotime.Format gotime.year_10000 = "10000-01-01T00:00:00Z"
  ∧ gotime.Parse "10000-01-01T00:00:00Z" = None
  ∧ (∀ parseError : string → error,
       ParseTimeWrapper (TimeLibrary := gotime.library parseError)
         (Format_RFC3339 (TimeLibrary := gotime.library parseError)
            gotime.year_10000)
       = (None, Some (parseError "10000-01-01T00:00:00Z"))
       ∧ wrapTime (H := gotime.library parseError) gotime.year_10000 = None
       ∧ ¬ (∀ t : Time,
              snd (ParseTimeWrapper (TimeLibrary := gotime.library parseError)
                     (Format_RFC3339
                        (TimeLibrary := gotime.library parseError) t))
              ≠ None →
              wrapTime (H := gotime.library parseError) t ≠ None)).
Proof.
  split; [reflexivity|]. split; [reflexivity|]. intros parseError.
  split; [reflexivity|]. split; [reflexivity|].
  intros Hreport. by apply (Hreport gotime.year_10000).
Qed.

(** C9, amended.  The signer's calls return the errors of the operations
    they make: a key-generation failure, a JWK-export failure and a signing
    failure each come back as the error result, next to a nil value.
    [wrapTime] has no error result: it returns the wrapper that
    [ParseTimeWrapper] gives for [t.Format(time.RFC3339)], so when that
    parse fails the error is dropped and the result is nil. *)
Theorem errors_surface_except_in_wrapTime `{TimeLibrary} `{Primitives} :
  (∀ t : Time, wrapTime t = fst (ParseTimeWrapper (Format_RFC3339 t)))
  ∧ (∀ (t : Time) (err : error),
       ParseTimeWrapper (Format_RFC3339 t) = (None, Some err) →
       wrapTime t = None)
  ∧ (∀ (t : Time) (tw : TimeWrapper),
       ParseTimeWrapper (Format_RFC3339 t) = (Some tw, None) →
       wrapTime t = Some tw)
  ∧ (∀ (c : elliptic_Curve) (rnd : Rand) (err : error),
       supported c = true →
       ecdsa_GenerateKey c rnd = inr err →
       NewECDSASigner c rnd = Returns (None, Some err))
  ∧ (∀ (privKey : ecdsa_PrivateKey) (pubKey : ecdsa_PublicKey) (h : Hash)
       (a : string) (err : error),
       jwksupport_JWKFromKey pubKey = inr err →
       newECDSASigner privKey pubKey h a = Returns (None, Some err))
  ∧ (∀ (es : ECDSASigner) (rnd : Rand) (msg : list byte) (err : error),
       ecdsa_Sign rnd (privateKey es) (hash_Sum (hash es) msg) = inr err →
       Sign es rnd msg = Returns (None, Some err)).
Proof.
  split; [|split; [|split; [|split; [|split]]]].
  - intros t. unfold wrapTime.
    by destruct (ParseTimeWrapper (Format_RFC3339 t)).
  - intros t err E. unfold wrapTime. by rewrite E.
  - intros t tw E. unfold wrapTime. by rewrite E.
  - intros c rnd err Hc E.
    destruct c; try discriminate Hc; cbn [NewECDSASigner];
      unfold_constructors; by rewrite E.
  - intros privKey pubKey h a err E. unfold newECDSASigner. by rewrite E.
  - intros es rnd msg err E. unfold Sign, signEcdsa. by rewrite E.
Qed.

Lemma errors_surface_except_in_wrapTime_witness :
  wrapTime (H := gotime.library (λ value, value)) gotime.year_10000 = None
  ∧ Sign (H := stub.primitives) stub.signer521 None stub.msg
    = Returns (None, Some "rand: reader failed").
Proof.
  destruct (errors_surface_except_in_wrapTime
              (H := gotime.library (λ value, value)) (H0 := stub.primitives))
    as (_ & Hnil & _ & _ & _ & Hsign).
  split.
  - apply (Hnil gotime.year_10000 "10000-01-01T00:00:00Z"). reflexivity.
  - by apply Hsign.
Defined.

End WrapTimeProperties.

(** ** Verification of the signer's own signatures *)

Section VerifyProperties.
Import golang signer verifier.
Context `{Primitives} `{VerifyPrimitive}.

(** A signer built by a dispatching constructor carries its key's public
    half and the hash the table binds to the curve dispatched on. *)
Lemma dispatched_signer (c : elliptic_Curve) (rnd : Rand)
    (privKey : ecdsa_PrivateKey) (es : ECDSASigner) :
  value (NewECDSASigner c rnd) = Some es
  ∨ (value (GetECDSASigner privKey) = Some es ∧ Curve (pub privKey) = c) →
  PubKey es = pub (privateKey es) ∧ tableHash c = Some (hash es).
Proof.
  assert (Hnew : ∀ c' h a,
            value (match ecdsa_GenerateKey c' rnd with
                   | inl k => newECDSASigner k (pub k) h a
                   | inr err => Returns (None, Some err)
                   end) = Some es →
            PubKey es = pub (privateKey es) ∧ hash es = h).
  { intros c' h a. destruct (ecdsa_GenerateKey c' rnd) as [k|]; [|done].
    intros E. apply newECDSASigner_fields in E as (-> & -> & -> & _). done. }
  assert (Hget : ∀ h a,
            value (newECDSASigner privKey (pub privKey) h a) = Some es →
            PubKey es = pub (privateKey es) ∧ hash es = h).
  { intros h a E. apply newECDSASigner_fields in E as (-> & -> & -> & _).
    done. }
  intros [E|[E <-]].
  - destruct c; cbn [NewECDSASigner] in E; [apply Hnew in E as [? ->]..|];
      done.
  - unfold GetECDSASigner in E.
    destruct (Curve (pub privKey)); [apply Hget in E as [? ->]..|]; done.
Qed.

(** C2.  For a signer built for a supported curve, [Verify] with the
    signer's public key accepts what [Sign] returned: it splits the
    signature into its two fixed-width halves, reads each as a big-endian
    number, which gives back exactly the pair [(r, s)] that the signing
    primitive produced, and delegates to the curve-verification primitive
    on the same digest.  The two library primitives are assumed to agree on
    that pair: the verifying one accepts the non-negative [(r, s)] the
    signing one returned. *)
Theorem Verify_accepts_Sign (c : elliptic_Curve) (rnd rnd' : Rand)
    (privKey : ecdsa_PrivateKey) (es : ECDSASigner) (msg sig : list byte) :
  value (NewECDSASigner c rnd) = Some es
  ∨ (value (GetECDSASigner privKey) = Some es ∧ Curve (pub privKey) = c) →
  Curve (pub (privateKey es)) = c →
  Sign es rnd' msg = Returns (Some sig, None) →
  (∀ r s : Z,
     ecdsa_Sign rnd' (privateKey es) (hash_Sum (hash es) msg) = inl (r, s) →
     0 <= r ∧ 0 <= s
     ∧ ecdsa_Verify (PubKey es) (hash_Sum (hash es) msg) r s = true) →
  let keyBytes := Z.to_nat (ceil_div8 (BitSize (Params c))) in
  Verify (PublicKey es) msg sig = None
  ∧ ∃ r s : Z,
      ecdsa_Sign rnd' (privateKey es) (hash_Sum (hash es) msg) = inl (r, s)
      ∧ big_SetBytes (take keyBytes sig) = r
      ∧ big_SetBytes (drop keyBytes sig) = s.
Proof.
  intros Hbuilt Hcurve Hsig Hprim keyBytes.
  destruct (dispatched_signer _ _ _ _ Hbuilt) as [Hpub Hhash].
  assert (Hsup : supported c = true) by (by destruct c).
  destruct (Sign_fixed_width_parts es rnd' msg sig Hsig)
    as (r & s & rBytes & sBytes & E & -> & Lr & Ls & Vr & Vs).
  rewrite Hcurve in Lr, Ls.
  rewrite (keyBytesOf_ceil (BitSize (Params c))) in Lr, Ls
    by (by destruct c).
  destruct (Hprim r s E) as (Hr & Hs & Hok).
  assert (length rBytes = keyBytes) as Lr' by (subst keyBytes; lia).
  assert (length sBytes = keyBytes) as Ls' by (subst keyBytes; lia).
  assert (big_SetBytes (take keyBytes (rBytes ++ sBytes)) = r) as Tr.
  { rewrite take_app_length' by done. lia. }
  assert (big_SetBytes (drop keyBytes (rBytes ++ sBytes)) = s) as Ts.
  { rewrite drop_app_length' by done. lia. }
  split; [|by exists r, s].
  unfold Verify, PublicKey. rewrite Hpub, Hcurve, Hhash. fold keyBytes.
  rewrite decide_True by (rewrite length_app; lia).
  rewrite Tr, Ts. rewrite <- Hpub. by rewrite Hok.
Qed.

End VerifyProperties.

Section VerifyWitness.
Import golang signer verifier.
#[local] Existing Instance stub.primitives.
#[local] Existing Instance stub.verifyPrimitive.

Lemma Verify_accepts_Sign_witness :
  Verify (PublicKey stub.signer521) stub.msg stub.sig521 = None.
Proof.
  refine (proj1 (Verify_accepts_Sign
                   (H := stub.primitives) (H0 := stub.verifyPrimitive)
                   P521 (Some 7) stub.nonce (stub.key P521 7)
                   stub.signer521 stub.msg stub.sig521 _ _ _ _)).
  - left. reflexivity.
  - reflexivity.
  - vm_compute. reflexivity.
  - intros r s E. vm_compute in E. injection E as <- <-.
    split; [|split]; [apply Z.leb_le..|]; vm_compute; reflexivity.
Defined.

End VerifyWitness.

(** ** The linked-data-proof manager *)

Section ManagerProperties.
Import golang verifiable manager fixtures.
Context `{Collaborators}.

Lemma split_no_separator (sep : ascii) (s : string) :
  contains sep s = false → split sep s = [s].
Proof.
  induction s as [|c s IH]; [done|]. cbn [contains split].
  intros [Hc Hs]%orb_false_iff. apply bool_decide_eq_false in Hc.
  rewrite decide_False by done. by rewrite IH.
Qed.

(** [strings.Split] of [issuer#fragment] on "#". *)
Lemma split_identifier (issuer fragment : string) :
  contains "#" issuer = false →
  contains "#" fragment = false →
  split "#" (issuer +:+ "#" +:+ fragment) = [issuer; fragment].
Proof.
  intros Hi Hf. induction issuer as [|c issuer IH].
  - change (EmptyString +:+ "#" +:+ fragment) with (String "#" fragment).
    cbn [split]. rewrite decide_True by done.
    by rewrite split_no_separator.
  - cbn [contains] in Hi. apply orb_false_iff in Hi as [Hc Hi].
    apply bool_decide_eq_false in Hc.
    change (String c issuer +:+ "#" +:+ fragment)
      with (String c (issuer +:+ "#" +:+ fragment)).
    cbn [split]. rewrite decide_False by done. by rewrite IH.
Qed.

Lemma parseVerificationMethod_identifier (issuer fragment : string) :
  contains "#" issuer = false →
  contains "#" fragment = false →
  parseVerificationMethod (issuer +:+ "#" +:+ fragment)
  = Some (issuer, fragment).
Proof.
  intros Hi Hf. unfold parseVerificationMethod.
  by rewrite split_identifier.
Qed.

(** Verifying one proof: its verdict, and its resolver call appended to the
    log. *)
Lemma verifyProof_spec (d : Document) (fetcher : PublicKeyFetcher) (i : nat)
    (p : Proof) (log : list Call) :
  verifyProof d fetcher i p log
  = (verdict d fetcher i p, log ++ option_list (resolverCall p)).
Proof.
  unfold verifyProof, verdict, resolverCall.
  destruct (parseVerificationMethod (verificationMethod p))
    as [[issuer fragment]|]; cbn.
  - unfold mbind, traced_mbind, traced_bind, resolve.
    destruct (fetcher issuer ("#" +:+ fragment)) as [[pk|err]|reason]; done.
  - unfold mret, traced_mret, traced_ret. by rewrite app_nil_r.
Qed.

Lemma verifyFrom_cons (d : Document) (fetcher : PublicKeyFetcher) (i : nat)
    (p : Proof) (ps : list Proof) (log : list Call) :
  verifyFrom d fetcher i (p :: ps) log
  = match verdict d fetcher i p with
    | Panics reason => (Panics reason, log ++ option_list (resolverCall p))
    | Returns r =>
        match verifyFrom d fetcher (S i) ps
                (log ++ option_list (resolverCall p)) with
        | (Returns rs, log') => (Returns (r :: rs), log')
        | (Panics reason, log') => (Panics reason, log')
        end
    end.
Proof.
  cbn [verifyFrom]. unfold mbind at 1, traced_mbind, traced_bind.
  rewrite verifyProof_spec.
  destruct (verdict d fetcher i p); [|done].
  unfold mbind, traced_mbind, traced_bind.
  by destruct (verifyFrom d fetcher (S i) ps _) as [[rs|reason] log'].
Qed.

(** A verification that returns gives one verdict per proof, in order, and
    has made the resolver call of every proof, in order. *)
Lemma verifyFrom_Returns (d : Document) (fetcher : PublicKeyFetcher)
    (ps : list Proof) :
  ∀ (i : nat) (log log' : list Call) (rs : list ProofResult),
    verifyFrom d fetcher i ps log = (Returns rs, log') →
    length rs = length ps
    ∧ log' = log ++ omap resolverCall ps
    ∧ ∀ (k : nat) (p : Proof),
        ps !! k = Some p →
        ∃ r, verdict d fetcher (i + k) p = Returns r ∧ rs !! k = Some r.
Proof.
  induction ps as [|p ps IH]; intros i log log' rs.
  - intros [= <- <-]. by rewrite app_nil_r.
  - rewrite verifyFrom_cons.
    destruct (verdict d fetcher i p) as [r|] eqn:Hr; [|done].
    destruct (verifyFrom d fetcher (S i) ps _) as [[rs'|] log''] eqn:Hrest;
      [|done].
    intros [= <- <-]. apply IH in Hrest as (Hlen & -> & Hrs).
    split; [cbn; lia|]. split.
    + cbn [omap list_omap]. rewrite <- app_assoc.
      by destruct (resolverCall p).
    + intros [|k] q Hq.
      * injection Hq as <-. exists r. by rewrite Nat.add_0_r.
      * destruct (Hrs k q Hq) as (r' & Hv & Hk). exists r'.
        by rewrite <- Nat.add_succ_comm.
Qed.

(** Verification returns when no verdict panics. *)
Lemma verifyFrom_total (d : Document) (fetcher : PublicKeyFetcher)
    (ps : list Proof) :
  ∀ (i : nat) (log : list Call),
    (∀ (k : nat) (p : Proof),
       ps !! k = Some p → ¬ panics (verdict d fetcher (i + k) p)) →
    ∃ rs log', verifyFrom d fetcher i ps log = (Returns rs, log').
Proof.
  induction ps as [|p ps IH]; intros i log Hsafe; [by eexists _, _|].
  rewrite verifyFrom_cons.
  destruct (verdict d fetcher i p) as [r|reason] eqn:Hr.
  - destruct (IH (S i) (log ++ option_list (resolverCall p)))
      as (rs & log' & ->); [|by eexists _, _].
    intros k q Hq. rewrite Nat.add_succ_comm. by apply (Hsafe (S k)).
  - specialize (Hsafe 0%nat p eq_refl). rewrite Nat.add_0_r, Hr in Hsafe.
    by destruct Hsafe.
Qed.

(** Whether a verdict panics is decided by the resolver at the proof's
    call alone. *)
Lemma verdict_panics (d : Document) (fetcher : PublicKeyFetcher) (i : nat)
    (p : Proof) :
  panics (verdict d fetcher i p)
  ↔ ∃ issuerID keyID,
      resolverCall p = Some (issuerID, keyID)
      ∧ panics (fetcher issuerID keyID).
Proof.
  unfold verdict. destruct (resolverCall p) as [[issuerID keyID]|].
  - destruct (fetcher issuerID keyID) as [resolved|reason] eqn:E; cbn.
    + split; [done|]. intros (? & ? & [= <- <-] & Hp). by rewrite E in Hp.
    + split; [|done]. intros _. exists issuerID, keyID. by rewrite E.
  - split; [done|]. by intros (? & ? & ? & _).
Qed.


(** The verdict list of a verification that returned, index by index. *)
Lemma VerifyProofs_lookup (d : Document) (fetcher : PublicKeyFetcher)
    (rs : list ProofResult) (log : list Call) :
  VerifyProofs d fetcher = (Returns rs, log) →
  length rs = length (proofs d)
  ∧ log = omap resolverCall (proofs d)
  ∧ ∀ k : nat,
      rs !! k = proofs d !! k ≫= (λ p, returned (verdict d fetcher k p)).
Proof.
  intros (Hlen & Hlog & Hrs)%verifyFrom_Returns.
  split; [done|]. split; [done|]. intros k.
  destruct (proofs d !! k) as [p|] eqn:Hp; cbn.
  - destruct (Hrs k p Hp) as (r & Hv & Hk). cbn in Hv. by rewrite Hv.
  - apply lookup_ge_None. apply lookup_ge_None in Hp. lia.
Qed.



(** What a successful or failed attachment does to the document. *)
Lemma AttachProof_inv (now : interop.Time) (d d' : Document)
    (ctx : LinkedDataProofContext) (err : option error) :
  AttachProof now d ctx = (d', err) →
  content d' = content d
  ∧ match err with
    | Some _ => d' = d
    | None =>
        ∃ value : list byte,
          proofs d'
          = proofs d
            ++ [ {| type_ := SignatureType ctx;
                    created := default now (Created ctx);
                    verificationMethod := VerificationMethod ctx;
                    proofPurpose := Purpose ctx;
                    signatureValue := value |} ]
    end.
Proof.
  unfold AttachProof.
  destruct (canonicalize _ _) as [canonical|e]; [|by intros [= <- <-]].
  destruct (suiteSign (Suite_ ctx) canonical) as [signature|e];
    [|by intros [= <- <-]].
  intros [= <- <-]. split; [done|]. by eexists.
Qed.


(** The outcome of verifying one proof whose identifier splits. *)
Lemma verifyProof_identifier (d : Document) (fetcher : PublicKeyFetcher)
    (i : nat) (p : Proof) (issuer fragment : string) (log : list Call) :
  parseVerificationMethod (verificationMethod p) = Some (issuer, fragment) →
  resolverCall p = Some (issuer, "#" +:+ fragment)
  ∧ snd (verifyProof d fetcher i p log) = log ++ [(issuer, "#" +:+ fragment)]
  ∧ fst (verifyProof d fetcher i p log)
    = (resolved ← fetcher issuer ("#" +:+ fragment);
       Returns (match resolved with
                | inr err => KeyResolutionFailure err
                | inl publicKey => checkSignature d i p publicKey
                end)).
Proof.
  intros Hparse.
  assert (resolverCall p = Some (issuer, "#" +:+ fragment)) as Hcall
    by (unfold resolverCall; by rewrite Hparse).
  rewrite verifyProof_spec. unfold verdict. by rewrite Hcall.
Qed.

(** What the two-proof fixture builds. *)
Lemma createVCWithTwoLinkedDataProofs_inv (parsed : result Document)
    (created : interop.Time) (signer1 signer2 : CryptoSigner)
    (vc : Document) (fetcher : PublicKeyFetcher) :
  createVCWithTwoLinkedDataProofs parsed created signer1 signer2
  = Some (vc, fetcher) →
  ∃ (vc0 : Document) (p1 p2 : Proof),
    parsed = (Some vc0, None)
    ∧ content vc = content vc0
    ∧ proofs vc = proofs vc0 ++ [p1; p2]
    ∧ verificationMethod p1 = "did:123#key1"
    ∧ verificationMethod p2 = "did:123#key2"
    ∧ fetcher = twoKeyFetcher signer1 signer2.
Proof.
  unfold createVCWithTwoLinkedDataProofs.
  destruct parsed as [[vc0|] [e|]]; try done.
  destruct (AttachProof created vc0 _) as [vc1 [e|]] eqn:H1; [done|].
  destruct (AttachProof created vc1 _) as [vc2 [e|]] eqn:H2; [done|].
  intros [= <- <-].
  destruct (AttachProof_inv _ _ _ _ _ H1) as [C1 [v1 E1]].
  destruct (AttachProof_inv _ _ _ _ _ H2) as [C2 [v2 E2]].
  exists vc0. eexists _, _. rewrite E2, E1, <- app_assoc, C2, C1. done.
Qed.

(** C7.  Verifying a proof whose verification method is
    [issuer#fragment] splits the identifier on "#" and calls the resolver
    exactly once, as [fetcher(issuer, "#" + fragment)]; the verdict is
    computed from what that call returns.  A verification that returns has
    made this call for every proof of the document, in order.  For the
    proofs the two-proof fixture attaches, under "did:123#key1" and
    "did:123#key2", the fetcher receives issuer "did:123" with key
    identifiers "#key1" and "#key2". *)
Theorem resolver_called_with_split_identifier :
  (∀ (d : Document) (fetcher : PublicKeyFetcher) (i : nat) (p : Proof)
     (issuer fragment : string) (log : list Call),
     verificationMethod p = issuer +:+ "#" +:+ fragment →
     contains "#" issuer = false →
     contains "#" fragment = false →
     parseVerificationMethod (verificationMethod p) = Some (issuer, fragment)
     ∧ snd (verifyProof d fetcher i p log)
       = log ++ [(issuer, "#" +:+ fragment)]
     ∧ fst (verifyProof d fetcher i p log)
       = (resolved ← fetcher issuer ("#" +:+ fragment);
          Returns (match resolved with
                   | inr err => KeyResolutionFailure err
                   | inl publicKey => checkSignature d i p publicKey
                   end)))
  ∧ (∀ (d : Document) (fetcher : PublicKeyFetcher) (rs : list ProofResult)
       (log : list Call),
       VerifyProofs d fetcher = (Returns rs, log) →
       log = omap resolverCall (proofs d))
  ∧ parseVerificationMethod "did:123#key1" = Some ("did:123", "key1")
  ∧ (∀ (parsed : result Document) (created : interop.Time)
       (signer1 signer2 : CryptoSigner) (vc : Document)
       (fetcher : PublicKeyFetcher),
       createVCWithTwoLinkedDataProofs parsed created signer1 signer2
       = Some (vc, fetcher) →
       ∃ (vc0 : Document) (p1 p2 : Proof),
         parsed = (Some vc0, None)
         ∧ proofs vc = proofs vc0 ++ [p1; p2]
         ∧ verificationMethod p1 = "did:123#key1"
         ∧ verificationMethod p2 = "did:123#key2"
         ∧ (∀ log : list Call,
              snd (verifyProof vc fetcher (length (proofs vc0)) p1 log)
              = log ++ [("did:123", "#key1")]
              ∧ snd (verifyProof vc fetcher (S (length (proofs vc0))) p2 log)
                = log ++ [("did:123", "#key2")])
         ∧ (proofs vc0 = [] →
            ∃ rs : list ProofResult,
              VerifyProofs vc fetcher
              = (Returns rs, [("did:123", "#key1"); ("did:123", "#key2")]))).
Proof.
  split; [|split; [|split; [reflexivity|]]].
  - intros d fetcher i p issuer fragment log Hvm Hi Hf.
    assert (parseVerificationMethod (verificationMethod p)
            = Some (issuer, fragment)) as Hparse
      by (rewrite Hvm; by apply parseVerificationMethod_identifier).
    split; [done|].
    by destruct (verifyProof_identifier d fetcher i p _ _ log Hparse)
      as (_ & ? & ?).
  - by intros d fetcher rs log (_ & ? & _)%VerifyProofs_lookup.
  - intros parsed created signer1 signer2 vc fetcher Hfixture.
    destruct (createVCWithTwoLinkedDataProofs_inv _ _ _ _ _ _ Hfixture)
      as (vc0 & p1 & p2 & -> & _ & Hproofs & Hvm1 & Hvm2 & ->).
    assert (parseVerificationMethod (verificationMethod p1)
            = Some ("did:123", "key1")) as Hparse1 by (by rewrite Hvm1).
    assert (parseVerificationMethod (verificationMethod p2)
            = Some ("did:123", "key2")) as Hparse2 by (by rewrite Hvm2).
    exists vc0, p1, p2. do 4 (split; [done|]). split.
    + intros log.
      destruct (verifyProof_identifier vc (twoKeyFetcher signer1 signer2)
                  (length (proofs vc0)) p1 _ _ log Hparse1) as (_ & -> & _).
      by destruct (verifyProof_identifier vc (twoKeyFetcher signer1 signer2)
                     (S (length (proofs vc0))) p2 _ _ log Hparse2)
        as (_ & -> & _).
    + intros Hnone. rewrite Hnone in Hproofs. cbn in Hproofs.
      unfold VerifyProofs. rewrite Hproofs, !verifyFrom_cons.
      unfold verdict, resolverCall. rewrite Hparse1, Hparse2. cbn.
      by eexists.
Qed.

(** The verdict on a proof depends on the resolver only through the call
    for that proof. *)
Lemma verdict_local (d : Document) (fetcher fetcher' : PublicKeyFetcher)
    (i : nat) (p : Proof) :
  (∀ issuerID keyID,
     resolverCall p = Some (issuerID, keyID) →
     fetcher issuerID keyID = fetcher' issuerID keyID) →
  verdict d fetcher i p = verdict d fetcher' i p.
Proof.
  intros Hsame. unfold verdict.
  destruct (resolverCall p) as [[issuerID keyID]|]; [|done].
  by rewrite (Hsame issuerID keyID).
Qed.

(** C8, amended.  A resolver failure that is returned as an error is
    recoverable: when the resolver does not panic on the calls of a
    document's proofs, verification returns one verdict per proof; the
    verdict of a proof whose resolution returned the error [err] is
    [KeyResolutionFailure err]; and the verdict of every proof is the one
    determined by the resolver's answer for that proof alone.  The fetcher
    of the two-proof fixture does not return such an error: it resolves
    "#key1" and "#key2" and panics with "invalid keyID" for every other
    key identifier, and a resolver panic makes verification panic. *)
Theorem resolution_error_fails_one_proof :
  (∀ (d : Document) (fetcher : PublicKeyFetcher),
     (∀ (k : nat) (p : Proof) (issuerID keyID : string),
        proofs d !! k = Some p →
        resolverCall p = Some (issuerID, keyID) →
        ¬ panics (fetcher issuerID keyID)) →
     ∃ (rs : list ProofResult) (log : list Call),
       VerifyProofs d fetcher = (Returns rs, log)
       ∧ length rs = length (proofs d)
       ∧ (∀ (i : nat) (p : Proof) (issuerID keyID : string) (err : error),
            proofs d !! i = Some p →
            resolverCall p = Some (issuerID, keyID) →
            fetcher issuerID keyID = Returns (inr err) →
            rs !! i = Some (KeyResolutionFailure err))
       ∧ (∀ (k : nat) (p : Proof) (fetcher' : PublicKeyFetcher),
            proofs d !! k = Some p →
            (∀ issuerID keyID,
               resolverCall p = Some (issuerID, keyID) →
               fetcher issuerID keyID = fetcher' issuerID keyID) →
            ∃ r : ProofResult,
              verdict d fetcher' k p = Returns r ∧ rs !! k = Some r))
  ∧ (∀ (signer1 signer2 : CryptoSigner) (issuerID keyID : string),
       keyID ≠ "#key1" → keyID ≠ "#key2" →
       twoKeyFetcher signer1 signer2 issuerID keyID = Panics "invalid keyID")
  ∧ (∀ (signer1 signer2 : CryptoSigner) (issuerID : string),
       returned (twoKeyFetcher signer1 signer2 issuerID "#key1")
       = Some (inl {| suite.Type_ := "Ed25519Signature2018";
                      suite.Value := [];
                      suite.JWK := Some (PublicJWK signer1) |})
       ∧ returned (twoKeyFetcher signer1 signer2 issuerID "#key2")
         = Some (inl {| suite.Type_ := "Ed25519Signature2018";
                        suite.Value := [];
                        suite.JWK := Some (PublicJWK signer2) |}))
  ∧ (∀ (d : Document) (fetcher : PublicKeyFetcher) (k : nat) (p : Proof)
       (issuerID keyID : string),
       proofs d !! k = Some p →
       resolverCall p = Some (issuerID, keyID) →
       panics (fetcher issuerID keyID) →
       panics (fst (VerifyProofs d fetcher))).
Proof.
  split; [|split; [|split]].
  - intros d fetcher Hsafe.
    destruct (verifyFrom_total d fetcher (proofs d) 0 []) as (rs & log & Hv).
    { intros k p Hp (issuerID & keyID & Hcall & Hpanic)%verdict_panics.
      by apply (Hsafe k p issuerID keyID). }
    fold (VerifyProofs d fetcher) in Hv.
    pose proof (VerifyProofs_lookup _ _ _ _ Hv) as (Hlen & _ & Hrs).
    exists rs, log. split; [done|]. split; [done|]. split.
    + intros i p issuerID keyID err Hp Hcall Herr.
      rewrite Hrs, Hp. cbn. unfold verdict. by rewrite Hcall, Herr.
    + intros k p fetcher' Hp Hsame.
      rewrite <- (verdict_local d fetcher fetcher' k p Hsame).
      specialize (Hrs k). rewrite Hp in Hrs. cbn in Hrs.
      destruct (verdict d fetcher k p) as [r|]; cbn in Hrs; [by exists r|].
      apply lookup_lt_Some in Hp. rewrite <- Hlen in Hp.
      apply lookup_lt_is_Some in Hp as [r Hr]. congruence.
  - intros signer1 signer2 issuerID keyID H1 H2. unfold twoKeyFetcher.
    by rewrite !decide_False.
  - done.
  - intros d fetcher k p issuerID keyID Hp Hcall Hpanic.
    destruct (VerifyProofs d fetcher) as [[rs|reason] log] eqn:Hv; [|done].
    apply verifyFrom_Returns in Hv as (_ & _ & Hrs).
    destruct (Hrs k p Hp) as (r & Hr & _).
    assert (panics (verdict d fetcher (0 + k) p)) as Hbad
      by (apply verdict_panics; by exists issuerID, keyID).
    by rewrite Hr in Hbad.
Qed.

End ManagerProperties.

(** ** The theorems of the manager on the fixture's document *)

Section ManagerWitnesses.
Import golang verifiable manager fixtures.
#[local] Existing Instance toy.collaborators.


(** What C8 says does not hold of the fixture's fetcher: asked for the
    unknown key identifier "#key3" it panics instead of returning an
    error, and so does the verification of a document that carries a proof
    under "did:123#key3". *)
Lemma fixture_fetcher_panics_on_unknown_key :
  twoKeyFetcher toy.signer1 toy.signer2 "did:123" "#key3"
  = Panics "invalid keyID"
  ∧ map verificationMethod (proofs toy.vc_key3)
    = ["did:123#key1"; "did:123#key2"; "did:123#key3"]
  ∧ VerifyProofs toy.vc_key3 (twoKeyFetcher toy.signer1 toy.signer2)
    = (Panics "invalid keyID",
       [("did:123", "#key1"); ("did:123", "#key2"); ("did:123", "#key3")])
  ∧ ¬ (∀ issuerID keyID : string,
         ¬ panics (twoKeyFetcher toy.signer1 toy.signer2 issuerID keyID)).
Proof.
  split; [reflexivity|]. split; [reflexivity|]. split; [reflexivity|].
  intros Hsafe. by apply (Hsafe "did:123" "#key3").
Qed.



Lemma resolver_called_with_split_identifier_witness :
  ∃ rs : list ProofResult,
    VerifyProofs toy.vc (twoKeyFetcher toy.signer1 toy.signer2)
    = (Returns rs, [("did:123", "#key1"); ("did:123", "#key2")]).
Proof.
  destruct (resolver_called_with_split_identifier (H := toy.collaborators))
    as (_ & _ & _ & Hfixture).
  destruct (Hfixture (Some toy.credential, None) toy.created
              toy.signer1 toy.signer2 toy.vc
              (twoKeyFetcher toy.signer1 toy.signer2) eq_refl)
    as (vc0 & p1 & p2 & Hparsed & _ & _ & _ & _ & Hlog).
  injection Hparsed as <-. by apply Hlog.
Defined.

Lemma resolution_error_fails_one_proof_witness :
  ∃ (rs : list ProofResult) (log : list Call),
    VerifyProofs toy.vc_key3 toy.lenientFetcher = (Returns rs, log)
    ∧ rs !! 2%nat = Some (KeyResolutionFailure "key not found").
Proof.
  destruct (resolution_error_fails_one_proof (H := toy.collaborators))
    as (Hrecover & _).
  destruct (Hrecover toy.vc_key3 toy.lenientFetcher)
    as (rs & log & Hverify & _ & Herr & _).
  { intros k p issuerID keyID _ _. unfold toy.lenientFetcher, twoKeyFetcher.
    repeat case_decide; cbn; tauto. }
  exists rs, log. split; [exact Hverify|].
  by eapply (Herr 2%nat _ "did:123" "#key3").
Defined.

End ManagerWitnesses.

(** ** Edge behaviour and invariants of the ECDSA signer *)

Section SignerEdgeProperties.
Import golang signer.
Context `{Primitives}.

(** The minimal encoding of [x] has at most [k] bytes exactly when
    [|x| < 256^k]. *)
Lemma big_Bytes_fits_iff (x k : Z) :
  0 <= k → Z.of_nat (length (big_Bytes x)) <= k ↔ Z.abs x < 256 ^ k.
Proof.
  intros Hk. split.
  - intros Hlen.
    destruct (Z.lt_ge_cases (Z.abs x) (256 ^ k)) as [|Hbig]; [done|].
    pose proof (big_Bytes_length_gt x (Z.to_nat k)) as Hgt.
    rewrite Z2Nat.id in Hgt by done. lia.
  - intros Hx. pose proof (big_Bytes_length_le x (Z.to_nat k)) as Hle.
    rewrite Z2Nat.id in Hle by done. lia.
Qed.

(** [copyPadded] panics on a negative size as on a source that is too
    long. *)
Lemma copyPadded_panics_when (source : list byte) (size : Z) :
  size < Z.of_nat (length source) ↔ panics (copyPadded source size).
Proof.
  split; [apply copyPadded_too_long|].
  intros Hp. destruct (Z.lt_ge_cases size (Z.of_nat (length source))); [done|].
  rewrite copyPadded_fits in Hp by lia. done.
Qed.

(** The signers every constructor builds from a key and a public key. *)
Lemma newECDSASigner_inv (privKey : ecdsa_PrivateKey)
    (pubKey : ecdsa_PublicKey) (h : Hash) (a : string) (es : ECDSASigner) :
  value (newECDSASigner privKey pubKey h a) = Some es →
  ∃ (jwk : JWK) (marshalled : list byte),
    jwksupport_JWKFromKey pubKey = inl jwk
    ∧ elliptic_Marshal (Curve pubKey) (X pubKey) (Y pubKey)
      = Returns marshalled
    ∧ es = {| privateKey := privKey; PubKey := pubKey; PubKeyJWK := jwk;
              pubKeyBytes := marshalled; hash := h; alg := a |}.
Proof.
  unfold newECDSASigner.
  destruct (jwksupport_JWKFromKey pubKey) as [jwk|]; [|done].
  destruct (elliptic_Marshal _ _ _) as [marshalled|]; [|done].
  intros [= <-]. by exists jwk, marshalled.
Qed.

(** A signer that a generating constructor returned was built from the
    generated key. *)
Lemma generated_inv (c : elliptic_Curve) (rnd : Rand) (h : Hash) (a : string)
    (es : ECDSASigner) :
  value (match ecdsa_GenerateKey c rnd with
         | inl privKey => newECDSASigner privKey (pub privKey) h a
         | inr err => Returns (None, Some err)
         end) = Some es →
  ∃ privKey : ecdsa_PrivateKey,
    ecdsa_GenerateKey c rnd = inl privKey
    ∧ value (newECDSASigner privKey (pub privKey) h a) = Some es.
Proof.
  destruct (ecdsa_GenerateKey c rnd) as [privKey|]; [|done].
  intros E. by exists privKey.
Qed.

(** X1.  [copyPadded] panics exactly when [size] is smaller than the length
    of [source] -- which covers every negative [size], where [make] panics
    -- and otherwise returns. *)
Theorem copyPadded_panics_iff (source : list byte) (size : Z) :
  (panics (copyPadded source size) ↔ size < Z.of_nat (length source))
  ∧ (¬ panics (copyPadded source size)
     ↔ ∃ padded : list byte, copyPadded source size = Returns padded).
Proof.
  split; [symmetry; apply copyPadded_panics_when|].
  destruct (copyPadded source size) as [padded|reason]; cbn.
  - split; [by exists padded|tauto].
  - split; [tauto|]. by intros [padded [=]].
Qed.

(** X2.  When the source fits, [copyPadded] returns a slice of exactly
    [size] bytes: [size - len(source)] zero bytes followed by the source
    unchanged, so the big-endian value is kept.  An empty source gives
    [size] zero bytes and a source of exactly [size] bytes comes back as it
    is. *)
Theorem copyPadded_zero_extends (source : list byte) (size : Z) :
  Z.of_nat (length source) <= size →
  ∃ padded : list byte,
    copyPadded source size = Returns padded
    ∧ Z.of_nat (length padded) = size
    ∧ take (Z.to_nat size - length source) padded
      = replicate (Z.to_nat size - length source) Byte.x00
    ∧ drop (Z.to_nat size - length source) padded = source
    ∧ big_SetBytes padded = big_SetBytes source
    ∧ (source = [] → padded = replicate (Z.to_nat size) Byte.x00)
    ∧ (Z.of_nat (length source) = size → padded = source).
Proof.
  intros Hfit. eexists. split; [by apply copyPadded_fits|].
  set (k := (Z.to_nat size - length source)%nat).
  assert (length (replicate k Byte.x00) = k) as Hk by apply length_replicate.
  split; [rewrite length_app, length_replicate; lia|].
  split; [by rewrite take_app_length'|].
  split; [by rewrite drop_app_length'|].
  split; [unfold big_SetBytes; by rewrite be_value_padded|].
  split.
  - intros ->. subst k. cbn [length]. rewrite app_nil_r. f_equal. lia.
  - intros Hlen. replace k with 0%nat by lia. done.
Qed.

(** X3.  The width [signEcdsa] computes from the curve's bit size with
    truncating division and the increment on a positive remainder is the
    least number of bytes whose bits cover the bit size: [keyBytes <= k]
    exactly when [bits <= 8 * k], whatever the sign of [bits]; so it is
    [ceil(bits / 8)]. *)
Theorem keyBytesOf_least_cover (bits : Z) :
  (∀ k : Z, keyBytesOf bits <= k ↔ bits <= 8 * k)
  ∧ keyBytesOf bits = ceil_div8 bits.
Proof.
  assert (keyBytesOf bits = ceil_div8 bits) as Hceil.
  { unfold keyBytesOf, ceil_div8.
    pose proof (Z.quot_rem' bits 8) as Hqr.
    pose proof (Z.div_mod (bits + 7) 8 ltac:(lia)) as Hdm.
    pose proof (Z.mod_pos_bound (bits + 7) 8 ltac:(lia)) as Hm.
    destruct (Z.le_gt_cases 0 bits) as [Hpos|Hneg].
    - pose proof (Z.rem_bound_pos bits 8 Hpos ltac:(lia)).
      destruct (Z.gtb_spec (Z.rem bits 8) 0); lia.
    - pose proof (Z.rem_bound_pos_neg bits 8 ltac:(lia) ltac:(lia)).
      destruct (Z.gtb_spec (Z.rem bits 8) 0); lia. }
  split; [|exact Hceil].
  intros k. rewrite Hceil. unfold ceil_div8.
  pose proof (Z.div_mod (bits + 7) 8 ltac:(lia)).
  pose proof (Z.mod_pos_bound (bits + 7) 8 ltac:(lia)).
  lia.
Qed.

(** X4.  Once the ECDSA primitive has returned a pair [(r, s)], [signEcdsa]
    panics exactly when the width is negative or a component needs more than
    [keyBytes] bytes, that is when [256^keyBytes <= |r|] or
    [256^keyBytes <= |s|]; in every other case it returns a signature of
    [2 * keyBytes] bytes and no error.  The curve need not be one of the
    table. *)
Theorem signEcdsa_panics_iff (rnd : Rand) (msg : list byte)
    (priv : ecdsa_PrivateKey) (h : Hash) (r s : Z) :
  let keyBytes := keyBytesOf (BitSize (Params (Curve (pub priv)))) in
  ecdsa_Sign rnd priv (hash_Sum h msg) = inl (r, s) →
  (panics (signEcdsa rnd msg priv h)
   ↔ keyBytes < 0 ∨ 256 ^ keyBytes <= Z.abs r ∨ 256 ^ keyBytes <= Z.abs s)
  ∧ (¬ panics (signEcdsa rnd msg priv h) →
     ∃ sig : list byte,
       signEcdsa rnd msg priv h = Returns (Some sig, None)
       ∧ Z.of_nat (length sig) = 2 * keyBytes).
Proof.
  intros keyBytes E. rewrite (signEcdsa_signed _ _ _ _ _ _ E). fold keyBytes.
  pose proof (copyPadded_panics_when (big_Bytes r) keyBytes) as Hr.
  pose proof (copyPadded_panics_when (big_Bytes s) keyBytes) as Hs.
  assert (keyBytes < 0 ∨ 256 ^ keyBytes <= Z.abs r ∨ 256 ^ keyBytes <= Z.abs s
          ↔ keyBytes < Z.of_nat (length (big_Bytes r))
            ∨ keyBytes < Z.of_nat (length (big_Bytes s))) as ->.
  { destruct (Z.lt_ge_cases keyBytes 0) as [Hneg|Hpos]; [lia|].
    pose proof (big_Bytes_fits_iff r keyBytes Hpos).
    pose proof (big_Bytes_fits_iff s keyBytes Hpos). lia. }
  destruct (copyPadded (big_Bytes r) keyBytes) as [rBytes|] eqn:Er;
    cbn [mbind outcome_bind bind panics] in *; [|tauto].
  destruct (copyPadded (big_Bytes s) keyBytes) as [sBytes|] eqn:Es;
    cbn [mbind outcome_bind bind panics] in *; [|tauto].
  split; [tauto|]. intros _. eexists. split; [reflexivity|].
  apply copyPadded_length in Er, Es. unfold append. rewrite length_app. lia.
Qed.

(** X5.  A signature determines the magnitudes of the two components it
    encodes: when two calls of [signEcdsa] return the same bytes, whatever
    the keys, curves, hashes and messages, the pairs the primitive returned
    agree up to sign, and the widths agree. *)
Theorem signature_determines_components (rnd1 rnd2 : Rand)
    (msg1 msg2 sig : list byte) (priv1 priv2 : ecdsa_PrivateKey)
    (h1 h2 : Hash) (r1 s1 r2 s2 : Z) :
  signEcdsa rnd1 msg1 priv1 h1 = Returns (Some sig, None) →
  signEcdsa rnd2 msg2 priv2 h2 = Returns (Some sig, None) →
  ecdsa_Sign rnd1 priv1 (hash_Sum h1 msg1) = inl (r1, s1) →
  ecdsa_Sign rnd2 priv2 (hash_Sum h2 msg2) = inl (r2, s2) →
  Z.abs r1 = Z.abs r2 ∧ Z.abs s1 = Z.abs s2
  ∧ keyBytesOf (BitSize (Params (Curve (pub priv1))))
    = keyBytesOf (BitSize (Params (Curve (pub priv2)))).
Proof.
  intros Hsig1 Hsig2 E1 E2.
  apply signEcdsa_inv in Hsig1 as (r & s & E & Hr1 & Hs1 & Hsig1 & _).
  rewrite E1 in E. injection E as <- <-.
  apply signEcdsa_inv in Hsig2 as (r & s & E & Hr2 & Hs2 & Hsig2 & _).
  rewrite E2 in E. injection E as <- <-.
  set (k1 := keyBytesOf (BitSize (Params (Curve (pub priv1))))) in *.
  set (k2 := keyBytesOf (BitSize (Params (Curve (pub priv2))))) in *.
  apply copyPadded_length in Hr1, Hs1, Hr2, Hs2.
  assert (k1 = k2) as Hk.
  { apply (f_equal (λ l : list byte, Z.of_nat (length l))) in Hsig1, Hsig2.
    rewrite (length_app (_ ++ _)) in Hsig1. rewrite (length_app (_ ++ _)) in Hsig2.
    lia. }
  rewrite Hsig1 in Hsig2. apply app_inj_1 in Hsig2 as [Hr Hs]; [|lia].
  apply (f_equal big_SetBytes) in Hr, Hs. unfold big_SetBytes in Hr, Hs.
  rewrite !be_value_padded in Hr, Hs.
  fold (big_SetBytes (big_Bytes r1)) in Hr. fold (big_SetBytes (big_Bytes r2)) in Hr.
  fold (big_SetBytes (big_Bytes s1)) in Hs. fold (big_SetBytes (big_Bytes s2)) in Hs.
  rewrite !big_SetBytes_Bytes in Hr, Hs. done.
Qed.

End SignerEdgeProperties.

(** ** Construction of signers *)

Section SignerConstructionProperties.
Import golang signer.
Context `{Primitives}.

(** The hash and the algorithm identifier a dispatching constructor binds
    for the curve it dispatched on. *)
Lemma dispatched_binding (c : elliptic_Curve) (rnd : Rand)
    (privKey : ecdsa_PrivateKey) (es : ECDSASigner) :
  value (NewECDSASigner c rnd) = Some es
  ∨ (value (GetECDSASigner privKey) = Some es ∧ Curve (pub privKey) = c) →
  match c with
  | P256 => hash es = SHA256 ∧ Alg es = P256Alg
  | P384 => hash es = SHA384 ∧ Alg es = P384Alg
  | P521 => hash es = SHA512 ∧ Alg es = P521Alg
  | S256 => hash es = SHA256 ∧ Alg es = Secp256Alg
  | OtherCurve _ => False
  end.
Proof.
  intros [E|[E <-]].
  - destruct c; cbn [NewECDSASigner] in E; [unfold_constructors..|done];
      apply generated_inv in E as (k & _ & E);
      by apply newECDSASigner_fields in E as (_ & _ & -> & <-).
  - unfold GetECDSASigner in E.
    destruct (Curve (pub privKey)); [unfold_constructors..|done];
      by apply newECDSASigner_fields in E as (_ & _ & -> & <-).
Qed.

(** X6.  Every signer a constructor returns is consistent with its key:
    [PublicKey()] is the public half of the private key [Sign] uses,
    [PublicJWK()] is the JWK that [jwksupport.JWKFromKey] returned for that
    public key, and [PublicKeyBytes()] is what [elliptic.Marshal] returned
    for its curve and coordinates.  This holds for the eight per-curve
    constructors and the two dispatching ones. *)
Theorem constructed_signer_public_parts (es : ECDSASigner) (rnd : Rand)
    (privKey : ecdsa_PrivateKey) (c : elliptic_Curve) :
  Some es ∈ [value (NewECDSAP256Signer rnd);
             value (GetECDSAP256Signer privKey);
             value (NewECDSAP384Signer rnd);
             value (GetECDSAP384Signer privKey);
             value (NewECDSAP521Signer rnd);
             value (GetECDSAP521Signer privKey);
             value (NewECDSASecp256k1Signer rnd);
             value (GetECDSASecp256k1Signer privKey);
             value (NewECDSASigner c rnd); value (GetECDSASigner privKey)] →
  PublicKey es = pub (privateKey es)
  ∧ jwksupport_JWKFromKey (PublicKey es) = inl (PublicJWK es)
  ∧ elliptic_Marshal (Curve (PublicKey es)) (X (PublicKey es))
      (Y (PublicKey es))
    = Returns (PublicKeyBytes es).
Proof.
  assert (Hget : ∀ k h a,
            value (newECDSASigner k (pub k) h a) = Some es →
            PublicKey es = pub (privateKey es)
            ∧ jwksupport_JWKFromKey (PublicKey es) = inl (PublicJWK es)
            ∧ elliptic_Marshal (Curve (PublicKey es)) (X (PublicKey es))
                (Y (PublicKey es))
              = Returns (PublicKeyBytes es)).
  { intros k h a E.
    by apply newECDSASigner_inv in E as (jwk & marshalled & Hjwk & Hm & ->). }
  assert (Hnew : ∀ c' h a,
            value (match ecdsa_GenerateKey c' rnd with
                   | inl k => newECDSASigner k (pub k) h a
                   | inr err => Returns (None, Some err)
                   end) = Some es →
            PublicKey es = pub (privateKey es)
            ∧ jwksupport_JWKFromKey (PublicKey es) = inl (PublicJWK es)
            ∧ elliptic_Marshal (Curve (PublicKey es)) (X (PublicKey es))
                (Y (PublicKey es))
              = Returns (PublicKeyBytes es)).
  { intros c' h a E. apply generated_inv in E as (k & _ & E).
    by apply Hget in E. }
  intros Hin. rewrite !elem_of_cons, elem_of_nil in Hin.
  destruct Hin as [E|[E|[E|[E|[E|[E|[E|[E|[E|[E|[]]]]]]]]]]]; symmetry in E.
  1, 3, 5, 7: by apply Hnew in E.
  1, 2, 3, 4: by apply Hget in E.
  - destruct c; cbn [NewECDSASigner] in E; [by apply Hnew in E..|done].
  - unfold GetECDSASigner in E.
    destruct (Curve (pub privKey)); [by apply Hget in E..|done].
Qed.

(** X7.  The per-curve [Get] constructors never compare the curve of the key
    with their own.  What each of them does is decided by the two library
    calls alone: when the JWK export of the public key fails it returns that
    error and no signer; when the export succeeds and [elliptic.Marshal]
    panics, as it does for a point that is not on the curve, it panics; and
    when both succeed it returns a signer that reports the constructor's
    algorithm identifier and signs with the given key, so that its
    signatures have the width of the key's curve, whichever constructor
    built it. *)
Theorem per_curve_getters_ignore_key_curve (privKey : ecdsa_PrivateKey) :
  Forall
    (λ '(get, a),
       (∀ err : error,
          jwksupport_JWKFromKey (pub privKey) = inr err →
          get privKey = Returns (None, Some err))
       ∧ (∀ (jwk : JWK) (reason : string),
            jwksupport_JWKFromKey (pub privKey) = inl jwk →
            elliptic_Marshal (Curve (pub privKey)) (X (pub privKey))
              (Y (pub privKey)) = Panics reason →
            get privKey = Panics reason)
       ∧ (∀ (jwk : JWK) (marshalled : list byte),
            jwksupport_JWKFromKey (pub privKey) = inl jwk →
            elliptic_Marshal (Curve (pub privKey)) (X (pub privKey))
              (Y (pub privKey)) = Returns marshalled →
            ∃ es : ECDSASigner,
              get privKey = Returns (Some es, None)
              ∧ privateKey es = privKey
              ∧ Alg es = a
              ∧ ∀ (rnd : Rand) (msg sig : list byte),
                  Sign es rnd msg = Returns (Some sig, None) →
                  Z.of_nat (length sig)
                  = 2 * keyBytesOf (BitSize (Params (Curve (pub privKey))))))
    [(GetECDSAP256Signer, "ES256"); (GetECDSAP384Signer, "ES384");
     (GetECDSAP521Signer, "ES521"); (GetECDSASecp256k1Signer, "ES256K")].
Proof.
  assert (Hrow : ∀ (h : Hash) (a : string),
            (∀ err : error,
               jwksupport_JWKFromKey (pub privKey) = inr err →
               newECDSASigner privKey (pub privKey) h a
               = Returns (None, Some err))
            ∧ (∀ (jwk : JWK) (reason : string),
                 jwksupport_JWKFromKey (pub privKey) = inl jwk →
                 elliptic_Marshal (Curve (pub privKey)) (X (pub privKey))
                   (Y (pub privKey)) = Panics reason →
                 newECDSASigner privKey (pub privKey) h a = Panics reason)
            ∧ (∀ (jwk : JWK) (marshalled : list byte),
                 jwksupport_JWKFromKey (pub privKey) = inl jwk →
                 elliptic_Marshal (Curve (pub privKey)) (X (pub privKey))
                   (Y (pub privKey)) = Returns marshalled →
                 ∃ es : ECDSASigner,
                   newECDSASigner privKey (pub privKey) h a
                   = Returns (Some es, None)
                   ∧ privateKey es = privKey
                   ∧ Alg es = a
                   ∧ ∀ (rnd : Rand) (msg sig : list byte),
                       Sign es rnd msg = Returns (Some sig, None) →
                       Z.of_nat (length sig)
                       = 2 * keyBytesOf
                               (BitSize (Params (Curve (pub privKey)))))).
  { intros h a. unfold newECDSASigner. split; [|split].
    - intros err E. by rewrite E.
    - intros jwk reason E Hm. by rewrite E, Hm.
    - intros jwk marshalled E Hm. rewrite E, Hm. eexists.
      split; [reflexivity|]. split; [reflexivity|]. split; [reflexivity|].
      intros rnd msg sig Hsig.
      destruct (Sign_fixed_width_parts _ rnd msg sig Hsig)
        as (r & s & rBytes & sBytes & _ & -> & Lr & Ls & _).
      cbn [privateKey] in Lr, Ls. rewrite length_app. lia. }
  constructor; [exact (Hrow SHA256 P256Alg)|].
  constructor; [exact (Hrow SHA384 P384Alg)|].
  constructor; [exact (Hrow SHA512 P521Alg)|].
  constructor; [exact (Hrow SHA256 Secp256Alg)|].
  constructor.
Qed.

(** X8.  [NewECDSASigner] is [GetECDSASigner] on the key it generates: when
    [ecdsa.GenerateKey] returns a key on the curve asked for, both calls
    return the same result, a signer or an error. *)
Theorem NewECDSASigner_wraps_generated_key (c : elliptic_Curve) (rnd : Rand)
    (privKey : ecdsa_PrivateKey) :
  ecdsa_GenerateKey c rnd = inl privKey →
  Curve (pub privKey) = c →
  NewECDSASigner c rnd = GetECDSASigner privKey.
Proof.
  intros E Hc. unfold GetECDSASigner. rewrite Hc.
  destruct c; cbn [NewECDSASigner]; [unfold_constructors; by rewrite E..|done].
Qed.

(** X9.  Among the signers of the dispatching constructors the algorithm
    identifier tells the curve: two signers report the same [Alg()] exactly
    when they were built for the same curve, and then they bind the same
    hash.  The hash alone does not tell the curve: P-256 and secp256k1 both
    bind SHA-256. *)
Theorem Alg_identifies_curve (es1 es2 : ECDSASigner) (c1 c2 : elliptic_Curve)
    (rnd1 rnd2 : Rand) (privKey1 privKey2 : ecdsa_PrivateKey) :
  value (NewECDSASigner c1 rnd1) = Some es1
  ∨ (value (GetECDSASigner privKey1) = Some es1
     ∧ Curve (pub privKey1) = c1) →
  value (NewECDSASigner c2 rnd2) = Some es2
  ∨ (value (GetECDSASigner privKey2) = Some es2
     ∧ Curve (pub privKey2) = c2) →
  (Alg es1 = Alg es2 ↔ c1 = c2)
  ∧ (c1 = c2 → hash es1 = hash es2)
  ∧ (c1 = P256 → c2 = S256 → hash es1 = hash es2 ∧ Alg es1 ≠ Alg es2).
Proof.
  intros H1 H2.
  apply dispatched_binding in H1. apply dispatched_binding in H2.
  destruct c1, c2; try done;
    destruct H1 as [-> ->], H2 as [-> ->];
    (split; [split; [intros [=]|intros [=]]; done|]);
    (split; [intros [=]|intros [=]]); done.
Qed.

(** X10.  A signer that [GetECDSASigner] returned signs without panicking
    whenever the components the ECDSA primitive returns lie below the order
    of the key's curve: the dispatch has rejected every curve outside the
    table, and on the four curves of the table the order fits the width.
    [Sign] then returns a signature of [2 * keyBytes] bytes and no error, or
    no signature and the primitive's error. *)
Theorem dispatched_signer_signs_without_panic (privKey : ecdsa_PrivateKey)
    (es : ECDSASigner) (rnd : Rand) (msg : list byte) :
  value (GetECDSASigner privKey) = Some es →
  (∀ r s : Z,
     ecdsa_Sign rnd privKey (hash_Sum (hash es) msg) = inl (r, s) →
     0 <= r < N (Params (Curve (pub privKey)))
     ∧ 0 <= s < N (Params (Curve (pub privKey)))) →
  (∃ sig : list byte,
     Sign es rnd msg = Returns (Some sig, None)
     ∧ Z.of_nat (length sig)
       = 2 * keyBytesOf (BitSize (Params (Curve (pub privKey)))))
  ∨ (∃ err : error, Sign es rnd msg = Returns (None, Some err)).
Proof.
  intros Hget Hrange.
  assert (supported (Curve (pub privKey)) = true ∧ privateKey es = privKey)
    as [Hsup Hkey].
  { unfold GetECDSASigner in Hget.
    destruct (Curve (pub privKey)); [unfold_constructors..|done];
      by apply newECDSASigner_fields in Hget as (-> & _). }
  unfold Sign. rewrite Hkey.
  set (keyBytes := keyBytesOf (BitSize (Params (Curve (pub privKey))))).
  destruct (ecdsa_Sign rnd privKey (hash_Sum (hash es) msg))
    as [[r s]|err] eqn:E.
  - left. destruct (Hrange r s eq_refl) as [Hr Hs].
    pose proof (order_fits_supported _ Hsup) as HN. fold keyBytes in HN.
    assert (0 <= keyBytes)
      by (subst keyBytes; by destruct (Curve (pub privKey))).
    rewrite (signEcdsa_signed _ _ _ _ _ _ E). fold keyBytes.
    rewrite !copyPadded_fits by (apply big_Bytes_fits_iff; lia).
    cbn [mbind outcome_bind bind]. eexists. split; [reflexivity|].
    pose proof (proj2 (big_Bytes_fits_iff r keyBytes ltac:(done)) ltac:(lia)).
    pose proof (proj2 (big_Bytes_fits_iff s keyBytes ltac:(done)) ltac:(lia)).
    unfold append. rewrite !length_app, !length_replicate. lia.
  - right. exists err. unfold signEcdsa. by rewrite E.
Qed.

End SignerConstructionProperties.

(** ** The interop time wrapper over Go's RFC 3339 layout *)

Section WrapTimeLayoutProperties.
Import golang interop gotime.

Lemma isDigit_digit (d : Z) : isDigit (digit d) = true.
Proof.
  unfold digit. pose proof (Z.mod_pos_bound d 10 ltac:(lia)).
  assert (Z.to_nat (d mod 10) < 10)%nat as Hn by lia.
  revert Hn. generalize (Z.to_nat (d mod 10)). intros n Hn.
  do 10 (destruct n as [|n]; [reflexivity|]). lia.
Qed.

Lemma digit_value (d : Z) : Z.of_nat (nat_of_ascii (digit d) - 48) = d mod 10.
Proof.
  unfold digit. pose proof (Z.mod_pos_bound d 10 ltac:(lia)).
  assert (Z.to_nat (d mod 10) < 10)%nat as Hn by lia.
  rewrite <- (Z2Nat.id (d mod 10)) at 2 by lia.
  revert Hn. generalize (Z.to_nat (d mod 10)). intros n Hn.
  do 10 (destruct n as [|n]; [reflexivity|]). lia.
Qed.

(** The two and four digit fields of the layout. *)
Lemma appendInt_2 (x : Z) :
  0 <= x < 100 →
  appendInt x 2 = String (digit (x / 10)) (String (digit x) EmptyString).
Proof.
  intros Hx.
  assert (forallb
            (λ n, String.eqb (appendInt (Z.of_nat n) 2)
                    (String (digit (Z.of_nat n / 10))
                       (String (digit (Z.of_nat n)) EmptyString)))
            (seq 0 100) = true) as Hall by (vm_compute; reflexivity).
  rewrite forallb_forall in Hall. specialize (Hall (Z.to_nat x)).
  rewrite Z2Nat.id in Hall by lia. apply String.eqb_eq, Hall.
  apply in_seq. lia.
Qed.

Lemma digit_mod (d : Z) : digit (d mod 10) = digit d.
Proof. unfold digit. by rewrite Z.mod_mod. Qed.

Lemma appendInt_4 (x : Z) :
  0 <= x < 10000 →
  appendInt x 4
  = String (digit (x / 1000))
      (String (digit (x / 100))
         (String (digit (x / 10)) (String (digit x) EmptyString))).
Proof.
  intros Hx.
  set (ds := [0; 1; 2; 3; 4; 5; 6; 7; 8; 9]).
  assert (Hin : ∀ a : Z, 0 <= a < 10 → In a ds).
  { intros a Ha.
    assert (a = 0 ∨ a = 1 ∨ a = 2 ∨ a = 3 ∨ a = 4 ∨ a = 5 ∨ a = 6 ∨ a = 7
            ∨ a = 8 ∨ a = 9) as Hcases by lia.
    subst ds. cbn [In]. intuition auto. }
  assert (forallb (λ a, forallb (λ b, forallb (λ c, forallb (λ d,
            String.eqb (appendInt (((a * 10 + b) * 10 + c) * 10 + d) 4)
              (String (digit a) (String (digit b) (String (digit c)
                 (String (digit d) EmptyString))))) ds) ds) ds) ds = true)
    as Hall by (vm_compute; reflexivity).
  assert (0 <= x / 1000 < 10) as Ha
    by (split; [apply Z.div_pos|apply Z.div_lt_upper_bound]; lia).
  pose proof (Z.mod_pos_bound (x / 100) 10 ltac:(lia)) as Hb.
  pose proof (Z.mod_pos_bound (x / 10) 10 ltac:(lia)) as Hc.
  pose proof (Z.mod_pos_bound x 10 ltac:(lia)) as Hd.
  rewrite forallb_forall in Hall. specialize (Hall _ (Hin _ Ha)).
  rewrite forallb_forall in Hall. specialize (Hall _ (Hin _ Hb)).
  rewrite forallb_forall in Hall. specialize (Hall _ (Hin _ Hc)).
  rewrite forallb_forall in Hall. specialize (Hall _ (Hin _ Hd)).
  apply String.eqb_eq in Hall. rewrite !digit_mod in Hall.
  rewrite <- Hall. f_equal.
  rewrite (Z.div_mod x 10) at 1 by lia.
  rewrite (Z.div_mod (x / 10) 10) at 1 by lia.
  rewrite (Z.div_mod (x / 10 / 10) 10) at 1 by lia.
  rewrite !Z.div_div by lia. change (10 * 10) with 100.
  change (10 * 100) with 1000. lia.
Qed.

Lemma ranged_2 (x lo hi : Z) (rest : string) :
  0 <= x < 100 → lo <= x <= hi →
  ranged 2 lo hi (String (digit (x / 10)) (String (digit x) rest))
  = Some (x, rest).
Proof.
  intros Hx Hr. unfold ranged. cbn [parseUint].
  rewrite !isDigit_digit, !digit_value.
  replace ((0 * 10 + (x / 10) mod 10) * 10 + x mod 10) with x
    by (Z.div_mod_to_equations; lia).
  cbn [mbind option_bind].
  destruct (Z.leb_spec lo x); [|lia]. destruct (Z.leb_spec x hi); [|lia].
  done.
Qed.

Lemma ranged_4 (x lo hi : Z) (rest : string) :
  0 <= x < 10000 → lo <= x <= hi →
  ranged 4 lo hi
    (String (digit (x / 1000))
       (String (digit (x / 100))
          (String (digit (x / 10)) (String (digit x) rest))))
  = Some (x, rest).
Proof.
  intros Hx Hr. unfold ranged. cbn [parseUint].
  rewrite !isDigit_digit, !digit_value.
  replace ((((0 * 10 + (x / 1000) mod 10) * 10 + (x / 100) mod 10) * 10
            + (x / 10) mod 10) * 10 + x mod 10) with x
    by (Z.div_mod_to_equations; lia).
  cbn [mbind option_bind].
  destruct (Z.leb_spec lo x); [|lia]. destruct (Z.leb_spec x hi); [|lia].
  done.
Qed.

Lemma hourField_2 (x : Z) (rest : string) :
  0 <= x < 24 →
  hourField (String (digit (x / 10)) (String (digit x) rest)) = Some (x, rest).
Proof.
  intros Hx. unfold hourField.
  rewrite !isDigit_digit, !digit_value.
  replace ((x / 10) mod 10 * 10 + x mod 10) with x
    by (Z.div_mod_to_equations; lia).
  cbn [mbind option_bind].
  destruct (Z.ltb_spec x 24); [done|lia].
Qed.

Lemma daysIn_le (m y : Z) : daysIn m y <= 31.
Proof.
  unfold daysIn.
  destruct (m =? 2); [destruct (isLeap y); lia|].
  destruct ((m =? 4) || (m =? 6) || (m =? 9) || (m =? 11)); lia.
Qed.

Lemma append_cons (c : ascii) (s1 s2 : string) :
  String c s1 +:+ s2 = String c (s1 +:+ s2).
Proof. reflexivity. Qed.

Lemma append_nil (s : string) : EmptyString +:+ s = s.
Proof. reflexivity. Qed.

Lemma expect_same (c : ascii) (rest : string) :
  expect c (String c rest) = Some rest.
Proof. unfold expect. by rewrite decide_True. Qed.

(** The zone suffix that [Format] writes reads back as the offset cut to
    whole minutes, and holds no fractional second. *)
Lemma parseZone_Format (off : Z) (z : string) :
  -86400 < off < 86400 →
  z = (if off =? 0 then "Z"
       else
         let zone := off ÷ 60 in
         (if zone <? 0 then "-" else "+")
         +:+ appendInt (Z.abs zone / 60) 2 +:+ ":"
         +:+ appendInt (Z.abs zone mod 60) 2) →
  parseFraction z = (0, z) ∧ parseZone z = Some (off ÷ 60 * 60).
Proof.
  intros Hoff ->. destruct (Z.eqb_spec off 0) as [->|Hnz]; [done|].
  cbv zeta. set (zone := off ÷ 60).
  assert (-1440 < zone < 1440) as Hzone.
  { pose proof (Z.quot_rem' off 60). subst zone.
    destruct (Z.le_gt_cases 0 off).
    - pose proof (Z.rem_bound_pos off 60). lia.
    - pose proof (Z.rem_bound_pos_neg off 60). lia. }
  assert (0 <= Z.abs zone / 60 < 24) as Hhr
    by (split; [apply Z.div_pos|apply Z.div_lt_upper_bound]; lia).
  pose proof (Z.mod_pos_bound (Z.abs zone) 60 ltac:(lia)) as Hmm.
  pose proof (Z.div_mod (Z.abs zone) 60 ltac:(lia)) as Hdm.
  rewrite !appendInt_2 by lia.
  destruct (Z.ltb_spec zone 0) as [Hneg|Hpos];
    rewrite !append_cons, !append_nil; (split; [reflexivity|]);
    unfold parseZone; lazy beta iota;
    rewrite ranged_2 by lia; cbn [mbind option_bind];
    rewrite expect_same; cbn [mbind option_bind];
    rewrite ranged_2 by lia; cbn [mbind option_bind].
  - rewrite decide_False by done. rewrite decide_True by done. f_equal. lia.
  - rewrite decide_True by done. f_equal. lia.
Qed.

Lemma Parse_Format (t : Time) :
  0 <= year t <= 9999 → 1 <= month t <= 12 →
  1 <= day t <= daysIn (month t) (year t) →
  0 <= hour t <= 23 → 0 <= minute t <= 59 → 0 <= second t <= 59 →
  -86400 < offset t < 86400 →
  Parse (Format t)
  = Some {| year := year t; month := month t; day := day t; hour := hour t;
            minute := minute t; second := second t; nanosecond := 0;
            offset := offset t ÷ 60 * 60 |}.
Proof.
  intros Hy Hm Hd Hh Hmi Hs Ho.
  pose proof (daysIn_le (month t) (year t)) as Hdays.
  unfold Format.
  set (z := if offset t =? 0 then _ else _).
  destruct (parseZone_Format (offset t) z Ho eq_refl) as [Hfrac Hzone].
  clearbody z.
  rewrite (appendInt_4 (year t)), (appendInt_2 (month t)),
    (appendInt_2 (day t)), (appendInt_2 (hour t)), (appendInt_2 (minute t)),
    (appendInt_2 (second t)) by lia.
  rewrite !append_cons, !append_nil. unfold Parse.
  rewrite ranged_4 by lia. cbn [mbind option_bind].
  rewrite expect_same. cbn [mbind option_bind].
  rewrite ranged_2 by lia. cbn [mbind option_bind].
  rewrite expect_same. cbn [mbind option_bind].
  rewrite ranged_2 by lia. cbn [mbind option_bind].
  rewrite expect_same. cbn [mbind option_bind].
  rewrite hourField_2 by lia. cbn [mbind option_bind].
  rewrite expect_same. cbn [mbind option_bind].
  rewrite ranged_2 by lia. cbn [mbind option_bind].
  rewrite expect_same. cbn [mbind option_bind].
  rewrite ranged_2 by lia. cbn [mbind option_bind].
  rewrite Hfrac, Hzone. reflexivity.
Qed.

(** Whether [parseUint] finds its [k] digits does not depend on the value
    read so far. *)
Lemma parseUint_acc (k : nat) (s : string) (a b : Z) :
  is_Some (parseUint k s a) → is_Some (parseUint k s b).
Proof.
  revert s a b. induction k as [|k IH]; intros s a b; [by cbn|].
  destruct s as [|c s]; [done|]. cbn [parseUint].
  destruct (isDigit c); [apply IH|done].
Qed.

Lemma leading_cons (k : nat) (c : ascii) (s : string) :
  isDigit c = true →
  is_Some (parseUint k s 0) → is_Some (parseUint (S k) (String c s) 0).
Proof.
  intros Hc Hs. cbn [parseUint]. rewrite Hc. by eapply parseUint_acc.
Qed.

Lemma leading_le (k : nat) (s : string) :
  is_Some (parseUint (S k) s 0) → is_Some (parseUint k s 0).
Proof.
  revert s. induction k as [|k IH]; intros s Hs; [by cbn|].
  destruct s as [|c s]; [by apply is_Some_None in Hs|].
  cbn [parseUint] in Hs. destruct (isDigit c) eqn:Hc;
    [|by apply is_Some_None in Hs].
  apply leading_cons; [done|]. apply IH. by eapply parseUint_acc.
Qed.

Lemma leading_app (k : nat) (s rest : string) (a : Z) :
  is_Some (parseUint k s a) → is_Some (parseUint k (s +:+ rest) a).
Proof.
  revert s a. induction k as [|k IH]; intros s a; [by cbn|].
  destruct s as [|c s]; [by intros ?%is_Some_None|].
  rewrite append_cons. cbn [parseUint].
  destruct (isDigit c); [apply IH|done].
Qed.

Lemma leading_zeros (k n : nat) (s : string) :
  is_Some (parseUint k s 0) → is_Some (parseUint k (zeros n +:+ s) 0).
Proof.
  intros Hs. induction n as [|n IH]; [done|].
  cbn [zeros]. rewrite append_cons. by apply leading_le, leading_cons.
Qed.

(** [decimal] writes digits only, and at least one. *)
Lemma leading_decimal (fuel : nat) (u : Z) (acc : string) (j : nat) :
  is_Some (parseUint j acc 0) →
  is_Some (parseUint j (decimal fuel u acc) 0)
  ∧ (fuel ≠ 0%nat → is_Some (parseUint (S j) (decimal fuel u acc) 0)).
Proof.
  revert u acc j. induction fuel as [|fuel IH]; intros u acc j Hacc; [done|].
  cbn [decimal].
  pose proof (leading_cons j (digit u) acc (isDigit_digit u) Hacc) as Hacc'.
  destruct (u <? 10).
  - split; [by apply leading_le|done].
  - destruct (IH (u / 10) (String (digit u) acc) (S j) Hacc') as [Hdec _].
    split; [by apply leading_le|done].
Qed.

(** A number of five digits or more is written with at least five. *)
Lemma leading_appendInt (x : Z) :
  10000 <= x → is_Some (parseUint 5 (appendInt x 4) 0).
Proof.
  intros Hx. unfold appendInt.
  destruct (Z.ltb_spec x 0); [lia|]. rewrite append_nil.
  apply leading_zeros. rewrite Z.abs_eq by lia.
  pose proof (Z.log2_le_mono 10000 x Hx) as Hlog.
  change (Z.log2 10000) with 13 in Hlog.
  destruct (Z.to_nat (Z.log2 x)) as [|[|[|[|fuel]]]] eqn:Hfuel; [lia..|].
  assert (1000 <= x / 10) by (apply Z.div_le_lower_bound; lia).
  assert (100 <= x / 10 / 10) by (apply Z.div_le_lower_bound; lia).
  assert (10 <= x / 10 / 10 / 10) by (apply Z.div_le_lower_bound; lia).
  cbn [decimal].
  destruct (Z.ltb_spec x 10); [lia|].
  destruct (Z.ltb_spec (x / 10) 10); [lia|].
  destruct (Z.ltb_spec (x / 10 / 10) 10); [lia|].
  destruct (Z.ltb_spec (x / 10 / 10 / 10) 10); [lia|].
  match goal with |- context [if ?b then _ else _] => destruct b end.
  - by repeat (apply leading_cons; [apply isDigit_digit|]).
  - refine (proj1 (leading_decimal _ _ _ 5 _)).
    by repeat (apply leading_cons; [apply isDigit_digit|]).
Qed.

(** A string that starts with five digits is no RFC 3339 time: the year has
    four. *)
Lemma Parse_five_digits (s : string) :
  is_Some (parseUint 5 s 0) → Parse s = None.
Proof.
  intros Hs. unfold Parse, ranged.
  destruct s as [|c1 s]; [done|]. cbn [parseUint] in *.
  destruct (isDigit c1); [|done].
  destruct s as [|c2 s]; [done|]. cbn [parseUint] in *.
  destruct (isDigit c2); [|done].
  destruct s as [|c3 s]; [done|]. cbn [parseUint] in *.
  destruct (isDigit c3); [|done].
  destruct s as [|c4 s]; [done|]. cbn [parseUint] in *.
  destruct (isDigit c4); [|done].
  destruct s as [|c5 s]; [by apply is_Some_None in Hs|]. cbn [parseUint] in *.
  destruct (isDigit c5) eqn:Hc5; [|by apply is_Some_None in Hs].
  cbn [mbind option_bind].
  match goal with |- context [if ?b then _ else _] => destruct b end; [|done].
  cbn [mbind option_bind].
  assert (expect "-" (String c5 s) = None) as ->; [|done].
  unfold expect. rewrite decide_False; [done|]. intros <-. discriminate Hc5.
Qed.

(** X11.  For a time of a year from 0 to 9999 whose zone offset is below
    24 hours, [wrapTime] returns a wrapper, never nil.  Its string is the
    RFC 3339 rendering of the time and its time has the same date and clock
    fields; the nanoseconds are dropped and the zone offset is cut to whole
    minutes, since the layout [time.RFC3339] writes neither. *)
Theorem wrapTime_keeps_whole_seconds (parseError : string → error)
    (t : Time) :
  0 <= year t <= 9999 → 1 <= month t <= 12 →
  1 <= day t <= daysIn (month t) (year t) →
  0 <= hour t <= 23 → 0 <= minute t <= 59 → 0 <= second t <= 59 →
  -86400 < offset t < 86400 →
  wrapTime (H := library parseError) t
  = Some {| Time_ := {| year := year t; month := month t; day := day t;
                        hour := hour t; minute := minute t;
                        second := second t; nanosecond := 0;
                        offset := offset t ÷ 60 * 60 |};
            timeStr := Format t |}.
Proof.
  intros Hy Hm Hd Hh Hmi Hs Ho. unfold wrapTime.
  cbn [interop.ParseTimeWrapper Format_RFC3339 library].
  unfold gotime.ParseTimeWrapper.
  by rewrite Parse_Format.
Qed.

(** X12.  For a time of a year outside 0 to 9999 [wrapTime] returns nil,
    whatever the other fields: [Format] writes the year with a sign or with
    five digits or more, which [ParseTimeWrapper] rejects, and [wrapTime]
    drops the error. *)
Theorem wrapTime_nil_outside_four_digit_years
    (parseError : string → error) (t : Time) :
  year t < 0 ∨ 9999 < year t →
  wrapTime (H := library parseError) t = None
  ∧ snd (gotime.ParseTimeWrapper parseError (Format t)) ≠ None.
Proof.
  intros Hy.
  assert (Parse (Format t) = None) as Hparse.
  { unfold Format. destruct Hy as [Hneg|Hbig].
    - unfold appendInt at 1. destruct (Z.ltb_spec (year t) 0); [|lia].
      rewrite !append_cons. reflexivity.
    - apply Parse_five_digits, leading_app, leading_appendInt. lia. }
  unfold wrapTime.
  cbn [interop.ParseTimeWrapper Format_RFC3339 library].
  unfold gotime.ParseTimeWrapper.
  by rewrite Hparse.
Qed.

End WrapTimeLayoutProperties.

(** ** The key fetcher of the two-proof fixture *)

Section FetcherProperties.
Import golang verifiable fixtures.

(** X13.  The fetcher that [createVCWithTwoLinkedDataProofs] returns looks
    at the key identifier only: the issuer identifier never changes its
    answer.  It never returns an error: it returns a key for exactly the two
    identifiers "#key1" and "#key2" -- of type "Ed25519Signature2018", with
    no raw value and with the JWK of the first, respectively second, signer
    -- and panics for every other identifier, also for "key1" without the
    fragment sign. *)
Theorem twoKeyFetcher_depends_on_keyID_only (signer1 signer2 : CryptoSigner) :
  (∀ issuerID issuerID' keyID : string,
     twoKeyFetcher signer1 signer2 issuerID keyID
     = twoKeyFetcher signer1 signer2 issuerID' keyID)
  ∧ (∀ (issuerID keyID : string) (err : error),
       twoKeyFetcher signer1 signer2 issuerID keyID ≠ Returns (inr err))
  ∧ (∀ (issuerID keyID : string) (pk : suite.PublicKey),
       twoKeyFetcher signer1 signer2 issuerID keyID = Returns (inl pk) ↔
       (keyID = "#key1" ∨ keyID = "#key2")
       ∧ pk = {| suite.Type_ := "Ed25519Signature2018";
                 suite.Value := [];
                 suite.JWK := Some (if decide (keyID = "#key1")
                                    then PublicJWK signer1
                                    else PublicJWK signer2) |})
  ∧ (∀ issuerID keyID : string,
       panics (twoKeyFetcher signer1 signer2 issuerID keyID) ↔
       keyID ≠ "#key1" ∧ keyID ≠ "#key2")
  ∧ panics (twoKeyFetcher signer1 signer2 "did:123" "key1").
Proof.
  split; [done|]. split.
  { intros issuerID keyID err. unfold twoKeyFetcher.
    by repeat case_decide. }
  split.
  { intros issuerID keyID pk. unfold twoKeyFetcher.
    repeat case_decide; subst; split;
      try (intros [= <-]); try (intros [[?|?] ->]); try done; auto. }
  split; [|done].
  intros issuerID keyID. unfold twoKeyFetcher.
  repeat case_decide; cbn; split; try tauto; by intros [? ?].
Qed.

End FetcherProperties.

(** ** The further theorems on concrete inputs *)

Section EdgeWitnesses.
Import golang signer interop.
#[local] Existing Instance stub.primitives.

Lemma copyPadded_panics_iff_witness :
  panics (copyPadded [Byte.x01; Byte.x02] 1)
  ∧ panics (copyPadded [] (-1)).
Proof.
  split.
  - apply (proj1 (copyPadded_panics_iff _ _)).
    cbn [length]. lia.
  - apply (proj1 (copyPadded_panics_iff _ _)).
    cbn [length]. lia.
Defined.

Lemma copyPadded_zero_extends_witness :
  ∃ padded : list byte,
    copyPadded [Byte.x2a] 3 = Returns padded
    ∧ Z.of_nat (length padded) = 3
    ∧ drop 2 padded = [Byte.x2a].
Proof.
  destruct (copyPadded_zero_extends [Byte.x2a] 3)
    as (padded & E & Hlen & _ & Hdrop & _); [cbn [length]; lia|].
  exists padded. split; [exact E|]. split; [exact Hlen|]. exact Hdrop.
Defined.

Lemma keyBytesOf_least_cover_witness :
  keyBytesOf 521 <= 66 ∧ ¬ keyBytesOf 521 <= 65.
Proof.
  destruct (keyBytesOf_least_cover 521) as [Hcover _].
  split; [apply Hcover; lia|]. intros Hle. apply Hcover in Hle. lia.
Defined.

Lemma signEcdsa_panics_iff_witness :
  ∃ sig : list byte,
    signEcdsa (H := stub.primitives) stub.nonce stub.msg (stub.key S256 7)
      SHA256 = Returns (Some sig, None)
    ∧ Z.of_nat (length sig) = 2 * 32.
Proof.
  assert (∃ r s : Z,
            ecdsa_Sign (Primitives := stub.primitives) stub.nonce
              (stub.key S256 7) (hash_Sum SHA256 stub.msg) = inl (r, s)
            ∧ Z.abs r < 256 ^ 32 ∧ Z.abs s < 256 ^ 32)
    as (r & s & E & Hr & Hs).
  { eexists _, _. split; [lazy; reflexivity|].
    split; apply Z.ltb_lt; vm_compute; reflexivity. }
  pose proof (signEcdsa_panics_iff (H := stub.primitives) stub.nonce stub.msg
                (stub.key S256 7) SHA256 r s E) as Hthm.
  cbv zeta in Hthm. destruct Hthm as [Hiff Hret].
  apply Hret. intros Hp. pose proof (proj1 Hiff Hp) as Hbig.
  change (keyBytesOf (BitSize (Params (Curve (pub (stub.key S256 7))))))
    with 32 in Hbig.
  clear -Hbig Hr Hs. lia.
Defined.

Lemma signature_determines_components_witness :
  ∃ r1 s1 r2 s2 : Z,
    ecdsa_Sign (Primitives := stub.primitives) stub.nonce (stub.key P521 7)
      (hash_Sum SHA512 stub.msg) = inl (r1, s1)
    ∧ ecdsa_Sign (Primitives := stub.primitives) stub.nonce (stub.key P521 7)
        (hash_Sum SHA512 (stub.msg ++ [Byte.x00])) = inl (r2, s2)
    ∧ Z.abs r1 = Z.abs r2 ∧ Z.abs s1 = Z.abs s2.
Proof.
  eexists _, _, _, _.
  split; [vm_compute; reflexivity|]. split; [vm_compute; reflexivity|].
  refine (let H := signature_determines_components (H := stub.primitives)
                     stub.nonce stub.nonce stub.msg (stub.msg ++ [Byte.x00])
                     stub.sig521 (stub.key P521 7) (stub.key P521 7)
                     SHA512 SHA512 _ _ _ _ _ _ _ _ in
          conj (proj1 H) (proj1 (proj2 H)));
    vm_compute; reflexivity.
Defined.

Lemma constructed_signer_public_parts_witness :
  NewECDSASigner P521 (Some 7) = Returns (Some stub.signer521, None)
  ∧ PublicKey stub.signer521 = pub (privateKey stub.signer521)
  ∧ jwksupport_JWKFromKey (PublicKey stub.signer521) = inl "P-521"
  ∧ elliptic_Marshal P521 8 9 = Returns (PublicKeyBytes stub.signer521)
  ∧ length (PublicKeyBytes stub.signer521) = 133%nat.
Proof.
  assert (NewECDSASigner P521 (Some 7) = Returns (Some stub.signer521, None))
    as Hnew by reflexivity.
  split; [exact Hnew|].
  destruct (constructed_signer_public_parts (H := stub.primitives)
              stub.signer521 (Some 7) (stub.key P521 7) P521)
    as (Hpub & Hjwk & Hbytes).
  { apply list_elem_of_lookup_2 with (i := 8%nat).
    cbn [lookup list_lookup]. by rewrite Hnew. }
  split; [exact Hpub|]. split; [exact Hjwk|]. split; [exact Hbytes|].
  reflexivity.
Defined.

Lemma per_curve_getters_ignore_key_curve_witness :
  (∃ es : ECDSASigner,
     GetECDSAP256Signer (stub.key P521 7) = Returns (Some es, None)
     ∧ Alg es = "ES256"
     ∧ ∀ (rnd : Rand) (msg sig : list byte),
         Sign es rnd msg = Returns (Some sig, None) →
         Z.of_nat (length sig) = 2 * 66)
  ∧ GetECDSAP256Signer
      {| pub := {| Curve := P256; X := 8; Y := 10 |}; D := 7 |}
    = Panics "crypto/elliptic: attempted operation on invalid point".
Proof.
  split.
  - pose proof (per_curve_getters_ignore_key_curve (H := stub.primitives)
                  (stub.key P521 7)) as Hrows.
    apply (Forall_lookup_1 _ _ 0%nat (GetECDSAP256Signer, "ES256")) in Hrows;
      [|reflexivity].
    destruct Hrows as (_ & _ & Hok).
    destruct (Hok "P-521"
                (Byte.x04 :: replicate 65 Byte.x00 ++ [Byte.x08]
                          ++ replicate 65 Byte.x00 ++ [Byte.x09])
                eq_refl eq_refl) as (es & E & _ & Halg & Hlen).
    exists es. split; [exact E|]. split; [exact Halg|]. exact Hlen.
  - pose proof (per_curve_getters_ignore_key_curve (H := stub.primitives)
                  {| pub := {| Curve := P256; X := 8; Y := 10 |}; D := 7 |})
      as Hrows.
    apply (Forall_lookup_1 _ _ 0%nat (GetECDSAP256Signer, "ES256")) in Hrows;
      [|reflexivity].
    destruct Hrows as (_ & Hpanic & _).
    by apply (Hpanic "P-256").
Defined.

Lemma NewECDSASigner_wraps_generated_key_witness :
  NewECDSASigner (H := stub.primitives) P384 (Some 7)
  = GetECDSASigner (stub.key P384 7).
Proof.
  by apply (NewECDSASigner_wraps_generated_key (H := stub.primitives)).
Defined.

Lemma Alg_identifies_curve_witness :
  ∃ es : ECDSASigner,
    value (GetECDSASigner (stub.key S256 7)) = Some es
    ∧ Alg stub.signer521 ≠ Alg es.
Proof.
  eexists. split; [reflexivity|]. intros Heq.
  destruct (Alg_identifies_curve (H := stub.primitives) _ _ P521 S256
              (Some 7) (Some 7) (stub.key P521 7) (stub.key S256 7)
              (or_introl eq_refl) (or_intror (conj eq_refl eq_refl)))
    as [Hiff _].
  apply Hiff in Heq. discriminate Heq.
Defined.

Lemma dispatched_signer_signs_without_panic_witness :
  (∃ sig : list byte,
     Sign (H := stub.primitives) stub.signer521 stub.nonce stub.msg
     = Returns (Some sig, None)
     ∧ Z.of_nat (length sig) = 2 * 66)
  ∨ (∃ err : error,
       Sign (H := stub.primitives) stub.signer521 stub.nonce stub.msg
       = Returns (None, Some err)).
Proof.
  refine (dispatched_signer_signs_without_panic (H := stub.primitives)
            (stub.key P521 7) stub.signer521 stub.nonce stub.msg eq_refl _).
  intros r s E. vm_compute in E. injection E as <- <-.
  repeat split; (apply Z.leb_le || apply Z.ltb_lt); vm_compute; reflexivity.
Defined.

Lemma wrapTime_keeps_whole_seconds_witness :
  wrapTime (H := gotime.library (λ value, value)) gotime.leap_day
  = Some {| Time_ := {| year := 2024; month := 2; day := 29; hour := 23;
                        minute := 59; second := 58; nanosecond := 0;
                        offset := -19800 |};
            timeStr := "2024-02-29T23:59:58-05:30" |}.
Proof.
  apply (wrapTime_keeps_whole_seconds (λ value, value) gotime.leap_day);
    split; (apply Z.leb_le || apply Z.ltb_lt); reflexivity.
Defined.

Lemma wrapTime_nil_outside_four_digit_years_witness :
  wrapTime (H := gotime.library (λ value, value)) gotime.year_10000 = None.
Proof.
  apply (wrapTime_nil_outside_four_digit_years (λ value, value)
           gotime.year_10000).
  right. cbn [year gotime.year_10000]. lia.
Defined.

Lemma twoKeyFetcher_depends_on_keyID_only_witness :
  fixtures.twoKeyFetcher toy.signer1 toy.signer2 "did:123" "#key2"
  = fixtures.twoKeyFetcher toy.signer1 toy.signer2 "did:example:456" "#key2"
  ∧ panics (fixtures.twoKeyFetcher toy.signer1 toy.signer2 "did:123" "key1").
Proof.
  destruct (twoKeyFetcher_depends_on_keyID_only toy.signer1 toy.signer2)
    as (Hissuer & _ & _ & _ & Hbare).
  split; [apply Hissuer|exact Hbare].
Defined.

End EdgeWitnesses.
